(** * A shallow embedding of the navigation/filter core of [glossary.js]

    The [TechGlossary] object is modelled as a record [State]; its methods
    become functions on that record.  A method that may raise an exception
    returns an [outcome]: the state reached when it returns, or the state
    reached when the exception left it.  JavaScript strings are modelled as
    lists of ASCII characters; [toLowerCase] is its ASCII restriction. *)

From Stdlib Require Import List Ascii String Bool Arith Lia ZArith Sorted Permutation.
Import ListNotations.

Definition jsstr := list ascii.

(** String literal helper. *)
Definition s_ (x : string) : jsstr := list_ascii_of_string x.

(** ** Strings *)

Definition ascii_eqb (a b : ascii) : bool := Ascii.eqb a b.

Fixpoint str_eqb (a b : jsstr) : bool :=
  match a, b with
  | [], [] => true
  | x :: a', y :: b' => ascii_eqb x y && str_eqb a' b'
  | _, _ => false
  end.

(** [String.prototype.toLowerCase] on ASCII characters. *)
Definition lower_char (c : ascii) : ascii :=
  let n := nat_of_ascii c in
  if (65 <=? n) && (n <=? 90) then ascii_of_nat (n + 32) else c.

Definition toLowerCase (s : jsstr) : jsstr := map lower_char s.

Fixpoint starts_with (s p : jsstr) : bool :=
  match p, s with
  | [], _ => true
  | c :: p', d :: s' => ascii_eqb c d && starts_with s' p'
  | _ :: _, [] => false
  end.

(** [s.includes(p)] *)
Fixpoint includes (s p : jsstr) : bool :=
  starts_with s p ||
  match s with
  | [] => false
  | _ :: s' => includes s' p
  end.

(** JavaScript truthiness of a string. *)
Definition truthy (s : jsstr) : bool :=
  match s with [] => false | _ => true end.

(** ** Data model (the [GlossaryTerm] and [GlossaryData] typedefs) *)

Record GlossaryTerm := mkTerm {
  id : jsstr;
  term : jsstr;
  fullForm : option jsstr;          (* [string|null] *)
  definition : jsstr;
  category : jsstr;
  relatedTerms : list jsstr;
  examples : list jsstr
}.

Record GlossaryData := mkData {
  terms : list GlossaryTerm;
  categories : list jsstr
}.

(** [sessionStorage], restricted to the key ['glossary-navigation-history'].
    [quota_exceeded] makes [setItem] throw (as a full storage does). *)
Record SessionStorage := mkStorage {
  history_item : option jsstr;
  quota_exceeded : bool
}.

(** The fields of a [TechGlossary] instance that the core reads or writes,
    together with the session storage it persists to.  [has_breadcrumb] is
    [true] when the breadcrumb DOM elements were found by [cacheElements]. *)
Record State := mkState {
  data : option GlossaryData;
  filteredTerms : list GlossaryTerm;
  currentCategory : jsstr;
  searchQuery : jsstr;
  navigationHistory : list jsstr;
  session : SessionStorage;
  has_breadcrumb : bool
}.

Inductive outcome :=
| Returned (st : State)
| Threw (st : State).

Definition state_of (o : outcome) : State :=
  match o with Returned st => st | Threw st => st end.

Definition set_history (st : State) (h : list jsstr) : State :=
  mkState (data st) (filteredTerms st) (currentCategory st) (searchQuery st)
          h (session st) (has_breadcrumb st).

Definition set_session (st : State) (ss : SessionStorage) : State :=
  mkState (data st) (filteredTerms st) (currentCategory st) (searchQuery st)
          (navigationHistory st) ss (has_breadcrumb st).

Definition set_filter (st : State) (cat q : jsstr) : State :=
  mkState (data st) (filteredTerms st) cat q
          (navigationHistory st) (session st) (has_breadcrumb st).

Definition set_filtered (st : State) (fl : list GlossaryTerm) : State :=
  mkState (data st) fl (currentCategory st) (searchQuery st)
          (navigationHistory st) (session st) (has_breadcrumb st).

(** [constructor(dataUrl)]: a fresh instance over a given session storage. *)
Definition constructor (ss : SessionStorage) (dom : bool) : State :=
  mkState None [] (s_ "all") [] [] ss dom.

(** ** Lookups *)

(** [this.data.terms.find(t => t.id === termId)] *)
Definition find_by_id (ts : list GlossaryTerm) (termId : jsstr)
  : option GlossaryTerm :=
  find (fun t => str_eqb (id t) termId) ts.

(** [findTermIdByName(termName)] *)
Definition findTermIdByName (st : State) (termName : jsstr) : option jsstr :=
  match data st with
  | None => None
  | Some d =>
      match find (fun t => str_eqb (toLowerCase (term t)) (toLowerCase termName))
                 (terms d) with
      | Some t => Some (id t)
      | None => None
      end
  end.

(** ** Filter engine: [filterTerms()] *)

Definition matches_query (q : jsstr) (t : GlossaryTerm) : bool :=
  includes (toLowerCase (term t)) q ||
  includes (toLowerCase (definition t)) q ||
  match fullForm t with
  | Some f => truthy f && includes (toLowerCase f) q
  | None => false
  end.

Definition filterTerms (st : State) : list GlossaryTerm :=
  match data st with
  | None => []
  | Some d =>
      let filtered := terms d in
      let filtered :=
        if negb (str_eqb (currentCategory st) (s_ "all"))
        then List.filter (fun t => str_eqb (category t) (currentCategory st)) filtered
        else filtered in
      if truthy (searchQuery st)
      then List.filter (matches_query (searchQuery st)) filtered
      else filtered
  end.

(** [filterAndRender()]: the DOM rendering that follows is not modelled. *)
Definition filterAndRender (st : State) : State :=
  set_filtered st (filterTerms st).

(** The ['input'] listener on the search box. *)
Definition onSearchInput (st : State) (value : jsstr) : State :=
  filterAndRender (set_filter st (currentCategory st) (toLowerCase value)).

(** ** Persisted form: [JSON.stringify] and [JSON.parse] on arrays of strings *)

Definition hex_digit (d : nat) : ascii :=
  if d <? 10 then ascii_of_nat (48 + d) else ascii_of_nat (87 + d).

(** The double-quote character. *)
Definition dquote : ascii := ascii_of_nat 34.

(** The escaping [JSON.stringify] applies to one character of a string. *)
Definition escape_char (c : ascii) : jsstr :=
  let n := nat_of_ascii c in
  if ascii_eqb c dquote then ["\"; dquote]%char
  else if ascii_eqb c "\" then ["\"; "\"]%char
  else if n =? 8 then ["\"; "b"]%char
  else if n =? 9 then ["\"; "t"]%char
  else if n =? 10 then ["\"; "n"]%char
  else if n =? 12 then ["\"; "f"]%char
  else if n =? 13 then ["\"; "r"]%char
  else if n <? 32 then
    ["\"; "u"; "0"; "0"; hex_digit (n / 16); hex_digit (n mod 16)]%char
  else [c].

Definition quote (s : jsstr) : jsstr :=
  (dquote :: flat_map escape_char s ++ [dquote])%char.

Definition JSON_stringify (h : list jsstr) : jsstr :=
  match h with
  | [] => s_ "[]"
  | x :: xs => ("[" :: quote x ++ flat_map (fun y => "," :: quote y) xs ++ ["]"])%char
  end.

Definition hex_value (c : ascii) : option nat :=
  let n := nat_of_ascii c in
  if (48 <=? n) && (n <=? 57) then Some (n - 48)
  else if (97 <=? n) && (n <=? 102) then Some (n - 87)
  else if (65 <=? n) && (n <=? 70) then Some (n - 55)
  else None.

Definition hex4 (a b c d : ascii) : option nat :=
  match hex_value a, hex_value b, hex_value c, hex_value d with
  | Some x, Some y, Some z, Some w => Some (((x * 16 + y) * 16 + z) * 16 + w)
  | _, _, _, _ => None
  end.

(** The single-character escapes of JSON. *)
Definition simple_escape (e : ascii) : option ascii :=
  if ascii_eqb e dquote then Some dquote
  else if ascii_eqb e "\" then Some "\"%char
  else if ascii_eqb e "/" then Some "/"%char
  else if ascii_eqb e "b" then Some (ascii_of_nat 8)
  else if ascii_eqb e "f" then Some (ascii_of_nat 12)
  else if ascii_eqb e "n" then Some (ascii_of_nat 10)
  else if ascii_eqb e "r" then Some (ascii_of_nat 13)
  else if ascii_eqb e "t" then Some (ascii_of_nat 9)
  else None.

(** [JSON.parse].  A JSON text is one value between optional whitespace;
    the value is returned as it is, string values as their UTF-16 code
    units. *)
#[local] Set Warnings "-register-all".
Inductive json :=
| JSONNull
| JSONBool (b : bool)
| JSONNumber (text : jsstr)
| JSONString (units : list nat)
| JSONArray (items : list json)
| JSONObject (members : list (list nat * json)).

(** JSON whitespace: space, tab, line feed, carriage return. *)
Definition is_ws (c : ascii) : bool :=
  let n := nat_of_ascii c in (n =? 32) || (n =? 9) || (n =? 10) || (n =? 13).

Fixpoint skip_ws (s : jsstr) : jsstr :=
  match s with
  | c :: r => if is_ws c then skip_ws r else s
  | [] => []
  end.

(** The body of a string literal, after its opening quote: the code units
    read so far, then the text after the closing quote. *)
Fixpoint lex_string (s : jsstr) (cur : list nat) : option (list nat * jsstr) :=
  match s with
  | [] => None
  | c :: r =>
      if ascii_eqb c dquote then Some (cur, r)
      else if ascii_eqb c "\" then
        match r with
        | [] => None
        | e :: r' =>
            if ascii_eqb e "u" then
              match r' with
              | a :: b :: c' :: d :: r'' =>
                  match hex4 a b c' d with
                  | Some n => lex_string r'' (cur ++ [n])
                  | None => None
                  end
              | _ => None
              end
            else match simple_escape e with
                 | Some x => lex_string r' (cur ++ [nat_of_ascii x])
                 | None => None
                 end
        end
      else if nat_of_ascii c <? 32 then None
      else lex_string r (cur ++ [nat_of_ascii c])
  end.

Definition is_digit (c : ascii) : bool :=
  (48 <=? nat_of_ascii c) && (nat_of_ascii c <=? 57).

Fixpoint span_digits (s : jsstr) : jsstr * jsstr :=
  match s with
  | c :: r => if is_digit c then let (ds, r') := span_digits r in (c :: ds, r') else ([], s)
  | [] => ([], [])
  end.

(** The integer part of a number: [0], or a nonzero digit and digits. *)
Definition lex_int (s : jsstr) : option (jsstr * jsstr) :=
  match s with
  | c :: r =>
      if ascii_eqb c "0" then Some ([c], r)
      else if is_digit c then let (ds, r') := span_digits r in Some (c :: ds, r')
      else None
  | [] => None
  end.

(** An optional fraction: [.] and at least one digit. *)
Definition lex_frac (s : jsstr) : option (jsstr * jsstr) :=
  match s with
  | c :: r =>
      if ascii_eqb c "." then
        match span_digits r with
        | ([], _) => None
        | (ds, r') => Some (c :: ds, r')
        end
      else Some ([], s)
  | [] => Some ([], [])
  end.

(** An optional exponent: [e] or [E], an optional sign, at least one digit. *)
Definition lex_exp (s : jsstr) : option (jsstr * jsstr) :=
  match s with
  | c :: r =>
      if ascii_eqb c "e" || ascii_eqb c "E" then
        let '(sg, r1) :=
          match r with
          | d :: r1 => if ascii_eqb d "+" || ascii_eqb d "-" then ([d], r1) else ([], r)
          | [] => ([], r)
          end in
        match span_digits r1 with
        | ([], _) => None
        | (ds, r2) => Some (c :: sg ++ ds, r2)
        end
      else Some ([], s)
  | [] => Some ([], [])
  end.

Definition lex_number (s : jsstr) : option (jsstr * jsstr) :=
  let '(sg, s1) :=
    match s with
    | c :: r => if ascii_eqb c "-" then ([c], r) else ([], s)
    | [] => ([], s)
    end in
  match lex_int s1 with
  | None => None
  | Some (i, s2) =>
      match lex_frac s2 with
      | None => None
      | Some (f, s3) =>
          match lex_exp s3 with
          | None => None
          | Some (e, s4) => Some (sg ++ i ++ f ++ e, s4)
          end
      end
  end.

(** [Some rest] when [s] is [p ++ rest]. *)
Fixpoint strip_prefix (p s : jsstr) : option jsstr :=
  match p, s with
  | [], _ => Some s
  | a :: p', b :: s' => if ascii_eqb a b then strip_prefix p' s' else None
  | _ :: _, [] => None
  end.

(** The recursive descent: [p_value] reads a value after optional
    whitespace, [p_elements] the elements of a nonempty array, [p_members]
    the members of a nonempty object; each returns the text after what it
    read.  Every call consumes a character before the next call but one, so
    the fuel [JSON_parse] passes, twice the length plus two, never runs
    out. *)
Fixpoint p_value (fuel : nat) (s : jsstr) : option (json * jsstr) :=
  match fuel with
  | 0 => None
  | S f =>
      match skip_ws s with
      | [] => None
      | c :: r =>
          if ascii_eqb c "[" then
            match skip_ws r with
            | d :: r' => if ascii_eqb d "]" then Some (JSONArray [], r') else p_elements f r []
            | [] => None
            end
          else if ascii_eqb c "{" then
            match skip_ws r with
            | d :: r' => if ascii_eqb d "}" then Some (JSONObject [], r') else p_members f r []
            | [] => None
            end
          else if ascii_eqb c dquote then
            match lex_string r [] with
            | Some (u, r') => Some (JSONString u, r')
            | None => None
            end
          else
            match strip_prefix (s_ "true") (c :: r) with
            | Some r' => Some (JSONBool true, r')
            | None =>
              match strip_prefix (s_ "false") (c :: r) with
              | Some r' => Some (JSONBool false, r')
              | None =>
                match strip_prefix (s_ "null") (c :: r) with
                | Some r' => Some (JSONNull, r')
                | None =>
                  match lex_number (c :: r) with
                  | Some (t, r') => Some (JSONNumber t, r')
                  | None => None
                  end
                end
              end
            end
      end
  end
with p_elements (fuel : nat) (s : jsstr) (acc : list json) : option (json * jsstr) :=
  match fuel with
  | 0 => None
  | S f =>
      match p_value f s with
      | None => None
      | Some (v, r) =>
          match skip_ws r with
          | c :: r' =>
              if ascii_eqb c "," then p_elements f r' (acc ++ [v])
              else if ascii_eqb c "]" then Some (JSONArray (acc ++ [v]), r')
              else None
          | [] => None
          end
      end
  end
with p_members (fuel : nat) (s : jsstr) (acc : list (list nat * json))
    : option (json * jsstr) :=
  match fuel with
  | 0 => None
  | S f =>
      match skip_ws s with
      | c :: r =>
          if ascii_eqb c dquote then
            match lex_string r [] with
            | None => None
            | Some (k, r1) =>
                match skip_ws r1 with
                | d :: r2 =>
                    if ascii_eqb d ":" then
                      match p_value f r2 with
                      | None => None
                      | Some (v, r3) =>
                          match skip_ws r3 with
                          | e :: r4 =>
                              if ascii_eqb e "," then p_members f r4 (acc ++ [(k, v)])
                              else if ascii_eqb e "}" then
                                Some (JSONObject (acc ++ [(k, v)]), r4)
                              else None
                          | [] => None
                          end
                      end
                    else None
                | [] => None
                end
            end
          else None
      | [] => None
      end
  end.

(** [None] is the [SyntaxError] [JSON.parse] throws. *)
Definition JSON_parse (s : jsstr) : option json :=
  match p_value (2 * List.length s + 2) s with
  | Some (v, r) => match skip_ws r with [] => Some v | _ :: _ => None end
  | None => None
  end.

(** The history a parsed value is, when it is an array of strings whose code
    units the model's characters (8-bit) hold. *)
Fixpoint strings_of (items : list json) : option (list jsstr) :=
  match items with
  | [] => Some []
  | JSONString u :: rest =>
      if forallb (fun n => n <? 256) u then
        match strings_of rest with
        | Some h => Some (map ascii_of_nat u :: h)
        | None => None
        end
      else None
  | _ :: _ => None
  end.

Definition as_history (v : json) : option (list jsstr) :=
  match v with JSONArray items => strings_of items | _ => None end.

(** ** Navigation history *)

(** [initializeHistory()]: [if (stored)] tests the truthiness of the stored
    text; a [SyntaxError] of [JSON.parse] is caught and resets the history
    to [[]]; any parsed value is assigned to [navigationHistory] as it is.
    [HistForeign v]: the parsed value [v] is not an array of strings, so the
    history field now holds a value the [State] record does not. *)
Inductive hist_init :=
| HistState (st : State)
| HistForeign (v : json).

Definition initializeHistory (st : State) : hist_init :=
  match history_item (session st) with
  | Some stored =>
      if truthy stored then
        match JSON_parse stored with
        | Some v =>
            match as_history v with
            | Some h => HistState (set_history st h)
            | None => HistForeign v
            end
        | None => HistState (set_history st [])
        end
      else HistState st
  | None => HistState st
  end.

(** [saveHistory()]: a throwing [setItem] is caught and logged. *)
Definition saveHistory (st : State) : State :=
  if quota_exceeded (session st) then st
  else set_session st (mkStorage (Some (JSON_stringify (navigationHistory st))) false).

(** The values of [this.navigationHistory.map(...)] in [renderBreadcrumb]:
    [Array.prototype.find] yields [undefined] when nothing matches. *)
Inductive jsval :=
| JNull
| JUndefined
| JTerm (t : GlossaryTerm).

Definition not_null (v : jsval) : bool :=
  match v with JNull => false | _ => true end.

(** [breadcrumbTerms] in [renderBreadcrumb()]:
    [.map(termId => ...).filter(term => term !== null)]. *)
Definition breadcrumbTerms (st : State) : list jsval :=
  List.filter not_null
    (map (fun termId =>
            match data st with
            | None => JNull
            | Some d =>
                match find_by_id (terms d) termId with
                | Some t => JTerm t
                | None => JUndefined
                end
            end) (navigationHistory st)).

(** Rendering reads [term.term] of every item: a TypeError on [undefined]. *)
Definition render_item_ok (v : jsval) : bool :=
  match v with JTerm _ => true | _ => false end.

(** [renderBreadcrumb()]: it writes only the DOM, so its modelled effect is
    whether it returns or throws. *)
Definition renderBreadcrumb (st : State) : outcome :=
  if negb (has_breadcrumb st) then Returned st
  else match navigationHistory st with
       | [] => Returned st
       | _ => if forallb render_item_ok (breadcrumbTerms st)
              then Returned st else Threw st
       end.

(** [addToHistory(termId)] *)
Definition addToHistory (st : State) (termId : jsstr) : outcome :=
  let h := navigationHistory st in
  if (0 <? List.length h) && str_eqb (nth (List.length h - 1) h [])  termId
  then Returned st
  else renderBreadcrumb (saveHistory (set_history st (h ++ [termId]))).

(** [clearHistory()] *)
Definition clearHistory (st : State) : outcome :=
  renderBreadcrumb (saveHistory (set_history st [])).

(** [Array.prototype.indexOf] *)
Fixpoint indexOf_from (h : list jsstr) (x : jsstr) (i : Z) : Z :=
  match h with
  | [] => (-1)%Z
  | y :: h' => if str_eqb y x then i else indexOf_from h' x (i + 1)
  end.

Definition indexOf (h : list jsstr) (x : jsstr) : Z := indexOf_from h x 0.

(** The breadcrumb branch of [navigateToTerm] (the [if (fromBreadcrumb)]
    block): [slice(0, index + 1)] and persist, or nothing. *)
Definition truncateHistory (st : State) (termId : jsstr) : State :=
  let index := indexOf (navigationHistory st) termId in
  if negb (Z.eqb index (-1)) then
    saveHistory (set_history st (firstn (Z.to_nat (index + 1)) (navigationHistory st)))
  else st.

(** [navigateToTerm(termId, fromBreadcrumb)].  [updateActiveFilterButton]
    and [scrollToTerm] touch only the DOM and timers. *)
Definition navigateToTerm (st : State) (termId : jsstr) (fromBreadcrumb : bool)
  : outcome :=
  match data st with
  | None => Returned st
  | Some d =>
      match find_by_id (terms d) termId with
      | None => Returned st
      | Some _ =>
          let o := if fromBreadcrumb then Returned (truncateHistory st termId)
                   else addToHistory st termId in
          match o with
          | Threw st1 => Threw st1
          | Returned st1 =>
              let st2 := set_filter st1 (s_ "all") [] in
              let st3 := filterAndRender st2 in
              renderBreadcrumb st3
          end
      end
  end.

(** ** Event handlers wired by the presentation layer *)

(** The ['click'] listener of the category buttons, attached in
    [renderCategoryFilters]; [updateActiveFilterButton] touches only the DOM. *)
Definition onCategoryClick (st : State) (cat : jsstr) : State :=
  filterAndRender (set_filter st cat (searchQuery st)).

(** The value [element.dataset.termId] reads back from markup written as
    [data-term-id="${raw}"]: the HTML parser takes the double-quoted
    attribute value up to the next double quote.  Character references
    ([&]), NUL and CR are rewritten by the parser and are not modelled here
    ([None]). *)
Fixpoint attr_value_dq (raw : jsstr) : option jsstr :=
  match raw with
  | [] => Some []
  | c :: r =>
      if ascii_eqb c dquote then Some []
      else if ascii_eqb c "&"%char || (nat_of_ascii c =? 0) || (nat_of_ascii c =? 13)
      then None
      else option_map (cons c) (attr_value_dq r)
  end.

(** A character the parser keeps as it is inside a double-quoted attribute
    value. *)
Definition attr_plain (c : ascii) : bool :=
  negb (ascii_eqb c dquote || ascii_eqb c "&"%char ||
        (nat_of_ascii c =? 0) || (nat_of_ascii c =? 13)).

(** The related-term spans of [renderTermCard]: each related name with the
    ID [findTermIdByName] gives it; [Some] marks a [related-term-exists]
    span, [None] a [related-term-missing] one.  The ID is interpolated raw
    (not escaped) into its [data-term-id] attribute. *)
Definition relatedLinks (st : State) (t : GlossaryTerm) : list (jsstr * option jsstr) :=
  map (fun related => (related, findTermIdByName st related)) (relatedTerms t).

(** The ['click'] (or Enter/Space) listener of a [related-term-exists] span
    ([attachRelatedTermHandlers]): [if (termId)] guards the call. *)
Definition onRelatedClick (st : State) (termId : jsstr) : outcome :=
  if truthy termId then navigateToTerm st termId false else Returned st.

(** The ['click'] listener of a [breadcrumb-link] ([renderBreadcrumb]). *)
Definition onBreadcrumbClick (st : State) (termId : jsstr) : outcome :=
  if truthy termId then navigateToTerm st termId true else Returned st.

(** The [data-term-id] of the [breadcrumb-link] anchors a successful
    [renderBreadcrumb] writes: every item but the last one, its [term.id]
    interpolated raw (not escaped). *)
Definition breadcrumbLinks (st : State) : list jsstr :=
  flat_map (fun v => match v with JTerm t => [id t] | _ => [] end)
           (removelast (breadcrumbTerms st)).

(** Every ID of the history resolves to a term of the dataset. *)
Definition history_resolves (d : GlossaryData) (h : list jsstr) : bool :=
  forallb (fun x => match find_by_id (terms d) x with Some _ => true | None => false end) h.

(** ** Term count: [updateTermCount()] *)

Fixpoint digits_aux (fuel n : nat) (acc : jsstr) : jsstr :=
  match fuel with
  | 0 => acc
  | S f =>
      let acc' := ascii_of_nat (48 + n mod 10) :: acc in
      if n <? 10 then acc' else digits_aux f (n / 10) acc'
  end.

(** [String(n)] for a natural number [n]. *)
Definition nat_text (n : nat) : jsstr := digits_aux (S n) n [].

(** The [textContent] [updateTermCount] writes into the term counter. *)
Definition termCountText (st : State) : jsstr :=
  let total := match data st with Some d => List.length (terms d) | None => 0 end in
  let filtered := List.length (filteredTerms st) in
  let unit := if total =? 1 then s_ "term" else s_ "terms" in
  if filtered =? total then nat_text total ++ s_ " " ++ unit
  else nat_text filtered ++ s_ " of " ++ nat_text total ++ s_ " " ++ unit.

(** ** [escapeHtml(text)] *)

(** [div.textContent = text; return div.innerHTML]: the HTML serialisation
    of a text node, which replaces [&], [<] and [>] by character references
    (and U+00A0, which lies outside ASCII, by [&nbsp;]). *)
Definition escape_html_char (c : ascii) : jsstr :=
  if ascii_eqb c "&" then s_ "&amp;"
  else if ascii_eqb c "<" then s_ "&lt;"
  else if ascii_eqb c ">" then s_ "&gt;"
  else [c].

Definition escapeHtml (text : jsstr) : jsstr := flat_map escape_html_char text.

(** ** Loading: [loadData()] and [init()] *)

(** What [fetch(this.dataUrl)] and [response.json()] give: a non-ok status,
    a body that does not parse (with the parser's message), or a parsed
    object whose [terms] is an array ([Some]) or missing / not an array
    ([None]).  Payloads without a [categories] array are outside the model. *)
Inductive Response :=
| HttpError (status : nat)
| JsonError (message : jsstr)
| Body (body_terms : option (list GlossaryTerm)) (body_categories : list jsstr).

(** The [data] field after [loadData]: [loadData] assigns [this.data] before
    it checks for the [terms] array. *)
Inductive DataField :=
| DNull
| DMalformed (categories : list jsstr)
| DLoaded (d : GlossaryData).

Definition load_prefix : jsstr := s_ "Failed to load glossary data: ".

(** The message of the TypeError V8 raises reading property [p] of
    [undefined]. *)
Definition undefined_message (p : jsstr) : jsstr :=
  s_ "Cannot read properties of undefined (reading '" ++ p ++ s_ "')".

(** The TypeError of the breadcrumb render of [init] (data loaded, so every
    item is a term or [undefined]): the items are rendered in order, the
    template of each item but the last reads [term.id] first, that of the
    last reads [term.term]. *)
Fixpoint breadcrumb_error (vs : list jsval) : jsstr :=
  match vs with
  | [] => []
  | [v] => if render_item_ok v then [] else undefined_message (s_ "term")
  | v :: rest => if render_item_ok v then breadcrumb_error rest else undefined_message (s_ "id")
  end.

Section Load.

(** [String.prototype.localeCompare], as a negative, zero or positive number. *)
Variable localeCompare : jsstr -> jsstr -> Z.

(** [this.data.terms.sort((a, b) => a.term.localeCompare(b.term))]: the
    sort is stable, which the insertion below reproduces (an element goes
    before the first one it does not exceed). *)
Fixpoint insert_term (x : GlossaryTerm) (l : list GlossaryTerm) : list GlossaryTerm :=
  match l with
  | [] => [x]
  | y :: l' =>
      if (localeCompare (term x) (term y) <=? 0)%Z then x :: l
      else y :: insert_term x l'
  end.

Fixpoint sort_terms (l : list GlossaryTerm) : list GlossaryTerm :=
  match l with
  | [] => []
  | x :: l' => insert_term x (sort_terms l')
  end.

(** [loadData()]: the [data] field it leaves, and the message of the error
    it throws, if any. *)
Definition loadData (resp : Response) : DataField * option jsstr :=
  match resp with
  | HttpError status =>
      (DNull, Some (load_prefix ++ s_ "HTTP error! status: " ++ nat_text status))
  | JsonError message => (DNull, Some (load_prefix ++ message))
  | Body None cats =>
      (DMalformed cats,
       Some (load_prefix ++ s_ "Invalid data format: terms array not found"))
  | Body (Some ts) cats => (DLoaded (mkData (sort_terms ts) cats), None)
  end.

Definition set_data (st : State) (d : GlossaryData) : State :=
  mkState (Some d) (filteredTerms st) (currentCategory st) (searchQuery st)
          (navigationHistory st) (session st) (has_breadcrumb st).

Inductive init_result :=
| InitOk (st : State)
| InitError (message : jsstr)      (* [handleError] shows the error panel *)
| InitForeign (v : json).          (* the restored history is [v], not an
                                      array of strings: what [init] does
                                      with it is outside the model *)

(** [init()] on a fresh instance: [cacheElements], [initializeHistory] (it
    catches its own errors), [loadData], [renderCategoryFilters] (DOM only),
    [filterAndRender], [renderBreadcrumb]; a thrown error ends in
    [handleError]. *)
Definition init (ss : SessionStorage) (dom : bool) (resp : Response) : init_result :=
  match loadData resp with
  | (_, Some message) => InitError message
  | (DLoaded d, None) =>
      match initializeHistory (constructor ss dom) with
      | HistForeign v => InitForeign v
      | HistState st =>
          let st1 := filterAndRender (set_data st d) in
          match renderBreadcrumb st1 with
          | Returned st' => InitOk st'
          | Threw _ => InitError (breadcrumb_error (breadcrumbTerms st1))
          end
      end
  | (_, None) => InitError [] (* not reached: loadData pairs None with DLoaded *)
  end.

End Load.

(** ** The fixture of [tests/glossary.test.js] *)

Definition t_api := mkTerm (s_ "api") (s_ "API") (Some (s_ "Application Programming Interface"))
  (s_ "A set of protocols for building software applications") (s_ "Architecture")
  [s_ "REST"; s_ "GraphQL"] [s_ "REST API"; s_ "GraphQL API"].
Definition t_cicd := mkTerm (s_ "ci-cd") (s_ "CI/CD")
  (Some (s_ "Continuous Integration/Continuous Deployment"))
  (s_ "Automated software development practices") (s_ "DevOps")
  [s_ "Jenkins"; s_ "GitHub Actions"] [s_ "Automated testing"; s_ "Automated deployment"].
Definition t_docker := mkTerm (s_ "docker") (s_ "Docker") None
  (s_ "A platform for developing, shipping, and running applications in containers")
  (s_ "DevOps") [s_ "Kubernetes"; s_ "Container"] [s_ "Docker Compose"; s_ "Dockerfile"].
Definition t_rest := mkTerm (s_ "rest") (s_ "REST") (Some (s_ "Representational State Transfer"))
  (s_ "An architectural style for distributed systems") (s_ "Architecture")
  [s_ "API"; s_ "HTTP"] [s_ "RESTful API"; s_ "REST endpoints"].
Definition fixture : GlossaryData :=
  mkData [t_api; t_cicd; t_docker; t_rest] [s_ "Architecture"; s_ "DevOps"; s_ "Security"].

(** The test's [beforeEach]: a fresh instance whose [data] is the fixture. *)
Definition with_filter (cat q : jsstr) : State :=
  mkState (Some fixture) [] cat q [] (mkStorage None false) false.

Example test_no_filters :
  map id (filterTerms (with_filter (s_ "all") [])) =
  [s_ "api"; s_ "ci-cd"; s_ "docker"; s_ "rest"].
Proof. reflexivity. Qed.

Example test_category :
  map id (filterTerms (with_filter (s_ "DevOps") [])) = [s_ "ci-cd"; s_ "docker"].
Proof. reflexivity. Qed.

Example test_search_name :
  map id (filterTerms (with_filter (s_ "all") (s_ "docker"))) = [s_ "docker"].
Proof. reflexivity. Qed.

Example test_category_and_search :
  map id (filterTerms (with_filter (s_ "Architecture") (s_ "api"))) = [s_ "api"].
Proof. reflexivity. Qed.

Example test_search_fullForm :
  map id (filterTerms (with_filter (s_ "all") (s_ "continuous"))) = [s_ "ci-cd"].
Proof. reflexivity. Qed.

Example test_related_lookup :
  findTermIdByName (with_filter (s_ "all") []) (s_ "REST") = Some (s_ "rest") /\
  findTermIdByName (with_filter (s_ "all") []) (s_ "GraphQL") = None.
Proof. split; reflexivity. Qed.

(** JSON texts written with ['] standing for the double quote. *)
Definition q_ (x : string) : jsstr :=
  map (fun c => if ascii_eqb c "'" then dquote else c) (s_ x).

Example test_json :
  option_map as_history
    (JSON_parse (JSON_stringify [s_ "a"; (s_ "b" ++ [dquote] ++ s_ "c");
                                 [ascii_of_nat 10; ascii_of_nat 1]; []])) =
  Some (Some [s_ "a"; (s_ "b" ++ [dquote] ++ s_ "c"); [ascii_of_nat 10; ascii_of_nat 1]; []]).
Proof. vm_compute. reflexivity. Qed.

Example test_json_values :
  JSON_parse (s_ " -1.5e+3 ") = Some (JSONNumber (s_ "-1.5e+3")) /\
  JSON_parse (q_ "{'a': [true, null], 'b': {}}") =
    Some (JSONObject [([97], JSONArray [JSONBool true; JSONNull]); ([98], JSONObject [])]) /\
  JSON_parse (s_ "1.") = None /\ JSON_parse (s_ "[01]") = None /\
  JSON_parse (q_ "['a',]") = None /\ JSON_parse (s_ "[1] 2") = None.
Proof. vm_compute. repeat split. Qed.


(** ** Spec-side vocabulary *)

(** [q] is a case-insensitive substring of [x]. *)
Definition ci_substring (q x : jsstr) : Prop :=
  exists u v, toLowerCase x = u ++ toLowerCase q ++ v.

(** [l] is [l0] with some elements left out, the others in their order. *)
Inductive subseq {A : Type} : list A -> list A -> Prop :=
| subseq_nil : subseq [] []
| subseq_keep x l l0 : subseq l l0 -> subseq (x :: l) (x :: l0)
| subseq_skip x l l0 : subseq l l0 -> subseq l (x :: l0).

(** No two identical IDs in adjacent positions. *)
Fixpoint no_adj_dup (h : list jsstr) : bool :=
  match h with
  | x :: ((y :: _) as t) => negb (str_eqb x y) && no_adj_dup t
  | _ => true
  end.

(** [restore()]: the history a fresh instance reads from the storage. *)
Inductive restored :=
| RList (h : list jsstr)
| RForeign (v : json).

Definition restore (ss : SessionStorage) : restored :=
  match initializeHistory (constructor ss true) with
  | HistState st => RList (navigationHistory st)
  | HistForeign v => RForeign v
  end.

Example test_restore :
  restore (mkStorage (Some (q_ " [ 'api' , 'gone' ] ")) false) = RList [s_ "api"; s_ "gone"] /\
  restore (mkStorage (Some (q_ "['\u00e9\n']")) false) = RList [[ascii_of_nat 233; ascii_of_nat 10]] /\
  restore (mkStorage (Some (q_ "['\u0100']")) false) = RForeign (JSONArray [JSONString [256]]) /\
  restore (mkStorage (Some (s_ "null")) false) = RForeign JSONNull /\
  restore (mkStorage (Some (s_ "[1]")) false) = RForeign (JSONArray [JSONNumber (s_ "1")]) /\
  restore (mkStorage (Some (s_ "[oops")) false) = RList [] /\
  restore (mkStorage (Some []) false) = RList [].
Proof. vm_compute. repeat split. Qed.

(** Restoring from [ss] yields a history without adjacent duplicates. *)
Definition restores_no_adj_dup (ss : SessionStorage) : bool :=
  match restore ss with
  | RList h => no_adj_dup h
  | RForeign _ => false
  end.

(** The history mutations of the core. *)
Inductive hist_op :=
| OpAppend (termId : jsstr)        (* addToHistory *)
| OpTruncate (termId : jsstr)      (* breadcrumb branch of navigateToTerm *)
| OpClear.                         (* clearHistory *)

Definition apply_op (st : State) (op : hist_op) : State :=
  match op with
  | OpAppend x => state_of (addToHistory st x)
  | OpTruncate x => truncateHistory st x
  | OpClear => state_of (clearHistory st)
  end.

Definition run_ops (st : State) (ops : list hist_op) : State :=
  fold_left apply_op ops st.

(** ** Lemmas on strings *)

Lemma str_eqb_eq (a b : jsstr) : str_eqb a b = true <-> a = b.
Proof.
  revert b; induction a as [|x a IH]; intros [|y b]; simpl;
    try (split; intro H; congruence).
  rewrite andb_true_iff, IH. unfold ascii_eqb. rewrite Ascii.eqb_eq.
  split; [intros [-> ->]; reflexivity | intro H; injection H; auto].
Qed.

Lemma str_eqb_refl (a : jsstr) : str_eqb a a = true.
Proof. apply str_eqb_eq; reflexivity. Qed.

Lemma starts_with_spec (s p : jsstr) :
  starts_with s p = true <-> exists v, s = p ++ v.
Proof.
  revert s; induction p as [|c p IH]; intros [|d s]; simpl.
  - split; [exists []; reflexivity | auto].
  - split; [exists (d :: s); reflexivity | auto].
  - split; [discriminate | intros [v Hv]; discriminate].
  - unfold ascii_eqb. rewrite andb_true_iff, Ascii.eqb_eq, IH.
    split.
    + intros [-> [v ->]]. exists v; reflexivity.
    + intros [v Hv]. injection Hv as -> ->. eauto.
Qed.

Lemma includes_spec (s p : jsstr) :
  includes s p = true <-> exists u v, s = u ++ p ++ v.
Proof.
  induction s as [|d s IH].
  - change (includes [] p) with (starts_with [] p || false).
    rewrite orb_true_iff, starts_with_spec. split.
    + intros [[v Hv] | H]; [exists [], v; exact Hv | discriminate].
    + intros [u [v Huv]]. left. destruct u; [exists v; exact Huv | discriminate].
  - change (includes (d :: s) p) with (starts_with (d :: s) p || includes s p).
    rewrite orb_true_iff, starts_with_spec, IH. split.
    + intros [[v Hv] | [u [v Huv]]].
      * exists [], v. exact Hv.
      * exists (d :: u), v. rewrite Huv. reflexivity.
    + intros [[|c u] [v Huv]].
      * left. exists v. exact Huv.
      * right. injection Huv as _ Huv. eauto.
Qed.

Lemma includes_empty (s : jsstr) : includes s [] = true.
Proof. destruct s; reflexivity. Qed.

Lemma toLowerCase_nil (q : jsstr) : toLowerCase q = [] <-> q = [].
Proof. destruct q; simpl; split; congruence. Qed.

Lemma filter_all_true {A} (f : A -> bool) (l : list A) :
  (forall x, f x = true) -> List.filter f l = l.
Proof. intro Hf; induction l as [|x l IH]; simpl; [|rewrite Hf, IH]; reflexivity. Qed.

Lemma filter_subseq {A} (f : A -> bool) (l : list A) : subseq (List.filter f l) l.
Proof.
  induction l as [|x l IH]; simpl; [constructor|].
  destruct (f x); constructor; exact IH.
Qed.

Lemma subseq_refl {A} (l : list A) : subseq l l.
Proof. induction l; constructor; assumption. Qed.

(** ** The JSON round trip *)

Lemma lex_string_escape_char (c : ascii) (r : jsstr) (cur : list nat) :
  lex_string (escape_char c ++ r) cur = lex_string r (cur ++ [nat_of_ascii c]).
Proof.
  destruct c as [[] [] [] [] [] [] [] []]; reflexivity.
Qed.

Lemma lex_string_escaped (s r : jsstr) (cur : list nat) :
  lex_string (flat_map escape_char s ++ r) cur = lex_string r (cur ++ map nat_of_ascii s).
Proof.
  revert cur; induction s as [|c s IH]; intro cur; simpl.
  - rewrite app_nil_r; reflexivity.
  - rewrite <- app_assoc, lex_string_escape_char, IH, <- app_assoc. reflexivity.
Qed.

(** The value a string [JSON.stringify] quoted parses back to. *)
Definition json_of_string (x : jsstr) : json := JSONString (map nat_of_ascii x).

Lemma p_value_quote (f : nat) (x r : jsstr) :
  p_value (S f) (quote x ++ r) = Some (json_of_string x, r).
Proof.
  unfold quote. cbn [app]. rewrite <- app_assoc.
  transitivity (
          match lex_string (flat_map escape_char x ++ [dquote] ++ r) [] with
          | Some (u, r') => Some (JSONString u, r')
          | None => None
          end); [reflexivity|].
  rewrite lex_string_escaped. reflexivity.
Qed.

Lemma p_elements_items (xs : list jsstr) (x r : jsstr) (acc : list json) (n : nat) :
  2 * List.length xs + 2 <= n ->
  p_elements n (quote x ++ flat_map (fun y => "," :: quote y) xs ++ "]" :: r)%char acc =
    Some (JSONArray (acc ++ map json_of_string (x :: xs)), r).
Proof.
  revert x acc n; induction xs as [|y xs IH]; intros x acc n Hn;
    (destruct n as [|[|f]]; [lia | lia |]).
  - transitivity (
            match p_value (S f) (quote x ++ ("]" :: r))%char with
            | None => None
            | Some (v, r0) =>
                match skip_ws r0 with
                | c :: r' =>
                    if ascii_eqb c "," then p_elements (S f) r' (acc ++ [v])
                    else if ascii_eqb c "]" then Some (JSONArray (acc ++ [v]), r')
                    else None
                | [] => None
                end
            end); [reflexivity|].
    rewrite p_value_quote. reflexivity.
  - change (flat_map (fun y => "," :: quote y) (y :: xs))%char
      with (("," :: quote y) ++ flat_map (fun y => "," :: quote y) xs)%char.
    transitivity (
            match p_value (S f) (quote x ++ (("," :: quote y) ++ flat_map (fun y => "," :: quote y) xs) ++ "]" :: r)%char with
            | None => None
            | Some (v, r0) =>
                match skip_ws r0 with
                | c :: r' =>
                    if ascii_eqb c "," then p_elements (S f) r' (acc ++ [v])
                    else if ascii_eqb c "]" then Some (JSONArray (acc ++ [v]), r')
                    else None
                | [] => None
                end
            end); [reflexivity|].
    rewrite p_value_quote. cbn [app skip_ws].
    change (is_ws ",") with false. cbv beta iota.
    change (ascii_eqb "," ",") with true. cbv beta iota.
    cbn [List.length] in Hn. rewrite <- app_assoc.
    rewrite (IH y (acc ++ [json_of_string x]) (S f)) by lia.
    rewrite <- app_assoc. reflexivity.
Qed.

Lemma flat_map_comma_length (xs : list jsstr) :
  List.length xs <= List.length (flat_map (fun y => "," :: quote y) xs)%char.
Proof.
  induction xs as [|y xs IH]; simpl; [lia|]. rewrite length_app. lia.
Qed.

Lemma JSON_roundtrip (h : list jsstr) :
  JSON_parse (JSON_stringify h) = Some (JSONArray (map json_of_string h)).
Proof.
  destruct h as [|x xs]; [reflexivity|].
  unfold JSON_parse, JSON_stringify.
  set (L := List.length _).
  assert (HL : List.length xs + 2 <= L).
  { unfold L. cbn [List.length]. rewrite !length_app. cbn [List.length].
    pose proof (flat_map_comma_length xs). lia. }
  replace (2 * L + 2) with (S (2 * L + 1)) by lia.
  change (p_value (S (2 * L + 1)) ("[" :: quote x ++ flat_map (fun y => "," :: quote y) xs ++ ["]"])%char)
    with (match skip_ws (quote x ++ flat_map (fun y => "," :: quote y) xs ++ ["]"])%char with
          | d :: r' => if ascii_eqb d "]" then Some (JSONArray [], r')
                       else p_elements (2 * L + 1) (quote x ++ flat_map (fun y => "," :: quote y) xs ++ ["]"])%char []
          | [] => None
          end).
  unfold quote at 1. cbn [app skip_ws is_ws nat_of_ascii ascii_eqb].
  fold (quote x).
  rewrite (p_elements_items xs x [] [] (2 * L + 1)) by lia. reflexivity.
Qed.

Lemma as_history_roundtrip (h : list jsstr) :
  as_history (JSONArray (map json_of_string h)) = Some h.
Proof.
  unfold as_history. induction h as [|x h IH]; [reflexivity|].
  cbn [map strings_of json_of_string].
  assert (Hb : forallb (fun n => n <? 256) (map nat_of_ascii x) = true).
  { apply forallb_forall. intros n Hn. apply in_map_iff in Hn as [c [<- _]].
    apply Nat.ltb_lt. apply nat_ascii_bounded. }
  rewrite Hb, IH, map_map.
  f_equal. f_equal. rewrite <- (map_id x) at 2. apply map_ext. apply ascii_nat_embedding.
Qed.

Lemma JSON_stringify_truthy (h : list jsstr) : truthy (JSON_stringify h) = true.
Proof. destruct h; reflexivity. Qed.

(** ** Lemmas on the filter engine *)

Lemma matches_query_spec (q : jsstr) (t : GlossaryTerm) :
  toLowerCase q <> [] ->
  matches_query (toLowerCase q) t = true <->
  ci_substring q (term t) \/ ci_substring q (definition t) \/
  (exists f, fullForm t = Some f /\ ci_substring q f).
Proof.
  intro Hq. unfold matches_query, ci_substring.
  rewrite !orb_true_iff, !includes_spec. split.
  - intros [[H | H] | H]; [left; exact H | right; left; exact H |].
    destruct (fullForm t) as [f|]; [|discriminate].
    apply andb_true_iff in H as [_ H]. apply includes_spec in H.
    right; right; exists f; split; [reflexivity | exact H].
  - intros [H | [H | [f [E H]]]]; [left; left; exact H | left; right; exact H |].
    right. rewrite E. apply andb_true_iff. split.
    + destruct f as [|c f]; [|reflexivity]. exfalso.
      destruct H as [[|a u] [v H]]; simpl in H; [|discriminate].
      destruct (toLowerCase q); [contradiction | discriminate].
    + apply includes_spec. exact H.
Qed.

Lemma matches_query_empty (t : GlossaryTerm) : matches_query [] t = true.
Proof. unfold matches_query. rewrite includes_empty. reflexivity. Qed.

Lemma ci_substring_empty (x : jsstr) : ci_substring [] x.
Proof. exists [], (toLowerCase x). reflexivity. Qed.

Lemma filterTerms_all_empty (st : State) (D : GlossaryData) :
  data st = Some D -> currentCategory st = s_ "all" -> searchQuery st = [] ->
  filterTerms st = terms D.
Proof. intros HD Hc Hq. unfold filterTerms. rewrite HD, Hc, Hq. reflexivity. Qed.

(** ** Claim theorems: filter engine *)

(** C1: with category ["all"], the search box keeps exactly the terms of the
    dataset in which the typed query is a case-insensitive substring of the
    name, the definition or the (non-null) full form; the terms left out
    match in none of the three. *)
Theorem filter_all_search_exact (st : State) (D : GlossaryData) (q : jsstr) :
  data st = Some D -> currentCategory st = s_ "all" ->
  filteredTerms (onSearchInput st q) =
    List.filter (matches_query (toLowerCase q)) (terms D) /\
  (forall t, In t (filteredTerms (onSearchInput st q)) <->
     In t (terms D) /\
     (ci_substring q (term t) \/ ci_substring q (definition t) \/
      (exists f, fullForm t = Some f /\ ci_substring q f))).
Proof.
  intros HD Hc.
  assert (Heq : filteredTerms (onSearchInput st q) =
                List.filter (matches_query (toLowerCase q)) (terms D)).
  { unfold onSearchInput, filterAndRender, set_filtered, set_filter, filterTerms.
    simpl. rewrite HD, Hc. simpl.
    destruct q as [|c q]; simpl.
    - symmetry. apply filter_all_true. apply matches_query_empty.
    - reflexivity. }
  split; [exact Heq|]. intro t. rewrite Heq, filter_In.
  destruct q as [|c q].
  - split.
    + intros [Hin _]. split; [exact Hin | left; apply ci_substring_empty].
    + intros [Hin _]. split; [exact Hin | apply matches_query_empty].
  - rewrite matches_query_spec; [reflexivity | discriminate].
Qed.

(** C2: with an empty query, [filterTerms] returns the terms whose category
    is exactly the selected one, or all terms for ["all"], as a subsequence
    of the dataset (never reordered). *)
Theorem filter_category_exact (st : State) (D : GlossaryData) (c : jsstr) :
  data st = Some D -> currentCategory st = c -> searchQuery st = [] ->
  filterTerms st =
    (if str_eqb c (s_ "all") then terms D
     else List.filter (fun t => str_eqb (category t) c) (terms D)) /\
  subseq (filterTerms st) (terms D) /\
  (c <> s_ "all" ->
   forall t, In t (filterTerms st) <-> In t (terms D) /\ category t = c).
Proof.
  intros HD Hc Hq.
  assert (Heq : filterTerms st =
    (if str_eqb c (s_ "all") then terms D
     else List.filter (fun t => str_eqb (category t) c) (terms D))).
  { unfold filterTerms. rewrite HD, Hc, Hq. cbn [truthy].
    destruct (str_eqb c (s_ "all")); reflexivity. }
  split; [exact Heq|]. split.
  - rewrite Heq. destruct (str_eqb c (s_ "all"));
      [apply subseq_refl | apply filter_subseq].
  - intros Hne t. rewrite Heq.
    destruct (str_eqb c (s_ "all")) eqn:E.
    + apply str_eqb_eq in E. contradiction.
    + rewrite filter_In, str_eqb_eq. reflexivity.
Qed.

(** C10: before the dataset has loaded, [filterTerms] returns [[]],
    [findTermIdByName] returns [null] for every name, and [navigateToTerm]
    returns without changing any state. *)
Theorem before_load_noop (st : State) :
  data st = None ->
  filterTerms st = [] /\
  (forall name, findTermIdByName st name = None) /\
  (forall termId fromBreadcrumb,
     navigateToTerm st termId fromBreadcrumb = Returned st).
Proof.
  intro HD. unfold filterTerms, findTermIdByName, navigateToTerm.
  rewrite HD. repeat split; reflexivity.
Qed.

(** ** Claim theorems: navigation controller *)

(** C6: navigating to an ID that does not resolve in the loaded store leaves
    the whole state (history, its persisted mirror, category, query)
    unchanged, whichever the value of [fromBreadcrumb]. *)
Theorem navigate_miss_noop (st : State) (D : GlossaryData) (termId : jsstr)
    (fromBreadcrumb : bool) :
  data st = Some D -> find_by_id (terms D) termId = None ->
  navigateToTerm st termId fromBreadcrumb = Returned st.
Proof.
  intros HD Hmiss. unfold navigateToTerm. rewrite HD, Hmiss. reflexivity.
Qed.

(** ** Lemmas on the history operations *)

Lemma renderBreadcrumb_state (st : State) : state_of (renderBreadcrumb st) = st.
Proof.
  unfold renderBreadcrumb. destruct (has_breadcrumb st); simpl; [|reflexivity].
  destruct (navigationHistory st); [reflexivity|].
  destruct (forallb _ _); reflexivity.
Qed.

Lemma saveHistory_history (st : State) :
  navigationHistory (saveHistory st) = navigationHistory st.
Proof. unfold saveHistory. destruct (quota_exceeded (session st)); reflexivity. Qed.

Lemma saveHistory_data (st : State) : data (saveHistory st) = data st.
Proof. unfold saveHistory. destruct (quota_exceeded (session st)); reflexivity. Qed.

Lemma tail_test_spec (h : list jsstr) (x : jsstr) :
  (0 <? List.length h) && str_eqb (nth (List.length h - 1) h []) x = true <->
  exists h', h = h' ++ [x].
Proof.
  destruct h as [|y h0] using rev_ind.
  - simpl. split; [discriminate|]. intros [h' Hh'].
    exfalso. exact (app_cons_not_nil h' [] x Hh').
  - rewrite length_app. simpl.
    replace (List.length h0 + 1 - 1) with (List.length h0) by lia.
    rewrite app_nth2 by lia. rewrite Nat.sub_diag. simpl.
    replace (0 <? List.length h0 + 1) with true by (symmetry; apply Nat.ltb_lt; lia).
    simpl. rewrite str_eqb_eq. split.
    + intros ->. exists h0. reflexivity.
    + intros [h' Hh']. apply app_inj_tail in Hh' as [_ ->]. reflexivity.
Qed.

Lemma addToHistory_history (st : State) (x : jsstr) :
  navigationHistory (state_of (addToHistory st x)) =
  (if (0 <? List.length (navigationHistory st)) &&
      str_eqb (nth (List.length (navigationHistory st) - 1) (navigationHistory st) []) x
   then navigationHistory st else navigationHistory st ++ [x]).
Proof.
  unfold addToHistory. destruct (_ && _); [reflexivity|].
  rewrite renderBreadcrumb_state, saveHistory_history. reflexivity.
Qed.

Lemma addToHistory_data (st : State) (x : jsstr) :
  data (state_of (addToHistory st x)) = data st.
Proof.
  unfold addToHistory. destruct (_ && _); [reflexivity|].
  rewrite renderBreadcrumb_state, saveHistory_data. reflexivity.
Qed.

Lemma indexOf_from_found (pre post : list jsstr) (x : jsstr) (i : Z) :
  ~ In x pre ->
  indexOf_from (pre ++ x :: post) x i = (i + Z.of_nat (List.length pre))%Z.
Proof.
  revert i; induction pre as [|y pre IH]; intros i Hx; simpl.
  - rewrite str_eqb_refl. lia.
  - destruct (str_eqb y x) eqn:E.
    + apply str_eqb_eq in E. subst. exfalso. apply Hx. left; reflexivity.
    + rewrite IH by (intro H; apply Hx; right; exact H). lia.
Qed.

Lemma indexOf_from_absent (h : list jsstr) (x : jsstr) (i : Z) :
  ~ In x h -> indexOf_from h x i = (-1)%Z.
Proof.
  revert i; induction h as [|y h IH]; intros i Hx; simpl; [reflexivity|].
  destruct (str_eqb y x) eqn:E.
  - apply str_eqb_eq in E. subst. exfalso. apply Hx. left; reflexivity.
  - apply IH. intro H; apply Hx; right; exact H.
Qed.

Lemma truncateHistory_found (st : State) (pre post : list jsstr) (x : jsstr) :
  navigationHistory st = pre ++ x :: post -> ~ In x pre ->
  navigationHistory (truncateHistory st x) = pre ++ [x].
Proof.
  intros Hh Hx. unfold truncateHistory, indexOf. rewrite Hh.
  rewrite indexOf_from_found by exact Hx.
  replace (Z.eqb (0 + Z.of_nat (List.length pre)) (-1)) with false
    by (symmetry; apply Z.eqb_neq; lia).
  simpl negb. cbv iota. rewrite saveHistory_history. simpl.
  replace (Z.to_nat (Z.of_nat (List.length pre) + 1))
    with (List.length pre + 1) by lia.
  rewrite firstn_app_2. reflexivity.
Qed.

Lemma truncateHistory_absent (st : State) (x : jsstr) :
  ~ In x (navigationHistory st) -> truncateHistory st x = st.
Proof.
  intro Hx. unfold truncateHistory, indexOf.
  rewrite indexOf_from_absent by exact Hx. reflexivity.
Qed.

Lemma truncateHistory_data (st : State) (x : jsstr) :
  data (truncateHistory st x) = data st.
Proof.
  unfold truncateHistory. destruct (negb _); [|reflexivity].
  rewrite saveHistory_data. reflexivity.
Qed.

Lemma find_by_id_in (ts : list GlossaryTerm) (termId : jsstr) (t : GlossaryTerm) :
  find_by_id ts termId = Some t -> In t ts /\ id t = termId.
Proof.
  unfold find_by_id. intro H. split.
  - exact (proj1 (find_some _ _ H)).
  - apply str_eqb_eq. exact (proj2 (find_some _ _ H)).
Qed.

(** ** Claim theorems: navigation history *)

(** A history holding an ID ([graphql]) that resolves to no term of the
    fixture, e.g. restored from the session after the dataset changed. *)
Definition dangling_state : State :=
  mkState (Some fixture) [] (s_ "all") [] [s_ "api"; s_ "graphql"]
          (mkStorage None false) true.

(** C3 (evaluation at the failing input): the [!== null] filter of
    [renderBreadcrumb] keeps the [undefined] that [find] returns for a
    dangling ID, so the display list is not [[API]], and rendering it throws
    when reading [term.term]. *)
Theorem breadcrumb_keeps_dangling :
  breadcrumbTerms dangling_state = [JTerm t_api; JUndefined] /\
  renderBreadcrumb dangling_state = Threw dangling_state.
Proof. split; reflexivity. Qed.

(** C4: a breadcrumb click on [x] keeps the history up to and including the
    first occurrence of [x]; when [x] does not occur the state is unchanged. *)
Theorem truncate_first_occurrence (st : State) (x : jsstr) :
  (forall pre post, navigationHistory st = pre ++ x :: post -> ~ In x pre ->
     navigationHistory (truncateHistory st x) = pre ++ [x]) /\
  (~ In x (navigationHistory st) -> truncateHistory st x = st).
Proof.
  split.
  - intros pre post. apply truncateHistory_found.
  - apply truncateHistory_absent.
Qed.

(** C5: [addToHistory x] is a no-op when [x] is the tail of the history and
    pushes [x] otherwise; calling it twice in a row leaves a history ending
    in [x], the second call changing nothing. *)
Theorem addToHistory_tail (st : State) (x : jsstr) :
  (forall h', navigationHistory st = h' ++ [x] -> addToHistory st x = Returned st) /\
  ((forall h', navigationHistory st <> h' ++ [x]) ->
     navigationHistory (state_of (addToHistory st x)) = navigationHistory st ++ [x]) /\
  (let st1 := state_of (addToHistory st x) in
   addToHistory st1 x = Returned st1 /\
   List.length (navigationHistory (state_of (addToHistory st1 x))) =
     List.length (navigationHistory st1) /\
   exists h', navigationHistory st1 = h' ++ [x]).
Proof.
  assert (Hnoop : forall s h', navigationHistory s = h' ++ [x] ->
                  addToHistory s x = Returned s).
  { intros s h' Hh. unfold addToHistory.
    replace (_ && _) with true; [reflexivity|].
    symmetry. apply tail_test_spec. exists h'. exact Hh. }
  assert (Hend : exists h', navigationHistory (state_of (addToHistory st x)) = h' ++ [x]).
  { rewrite addToHistory_history.
    destruct (_ && _) eqn:E; [apply tail_test_spec in E; exact E|].
    exists (navigationHistory st). reflexivity. }
  split; [exact (Hnoop st)|]. split.
  - intro Hne. rewrite addToHistory_history.
    destruct (_ && _) eqn:E; [|reflexivity].
    apply tail_test_spec in E as [h' E]. exfalso. exact (Hne h' E).
  - destruct Hend as [h' Hend]. simpl.
    rewrite (Hnoop _ h' Hend). split; [reflexivity|]. split; [reflexivity|].
    exists h'; exact Hend.
Qed.

(** C7: after a navigation to a resolving ID completes, the query is empty,
    the category is ["all"], and the target term is in the recomputed
    filtered view ([filteredTerms]) and in [filterTerms()]. *)
Theorem navigate_target_visible (st st' : State) (D : GlossaryData)
    (termId : jsstr) (fromBreadcrumb : bool) (t : GlossaryTerm) :
  data st = Some D -> find_by_id (terms D) termId = Some t ->
  navigateToTerm st termId fromBreadcrumb = Returned st' ->
  searchQuery st' = [] /\ currentCategory st' = s_ "all" /\
  id t = termId /\ In t (filteredTerms st') /\ In t (filterTerms st').
Proof.
  intros HD Ht Hnav. apply find_by_id_in in Ht as Hin. destruct Hin as [Hin Hid].
  unfold navigateToTerm in Hnav. rewrite HD, Ht in Hnav.
  set (o := if fromBreadcrumb then Returned (truncateHistory st termId)
            else addToHistory st termId) in Hnav.
  assert (Hdata : data (state_of o) = Some D).
  { unfold o. destruct fromBreadcrumb; simpl.
    - rewrite truncateHistory_data. exact HD.
    - rewrite addToHistory_data. exact HD. }
  destruct o as [st1 | st1]; [|discriminate].
  simpl in Hdata.
  pose proof (renderBreadcrumb_state (filterAndRender (set_filter st1 (s_ "all") []))) as Hr.
  rewrite Hnav in Hr. simpl in Hr. subst st'.
  assert (Hf : filterTerms (set_filter st1 (s_ "all") []) = terms D).
  { apply filterTerms_all_empty; [exact Hdata | reflexivity | reflexivity]. }
  split; [reflexivity|]. split; [reflexivity|]. split; [exact Hid|]. split.
  - change (In t (filterTerms (set_filter st1 (s_ "all") []))). rewrite Hf. exact Hin.
  - rewrite (filterTerms_all_empty _ D); [exact Hin | exact Hdata | reflexivity | reflexivity].
Qed.

(** ** Lemmas on the persisted history *)

Lemma no_adj_dup_snoc (h : list jsstr) (x : jsstr) :
  no_adj_dup h = true -> (forall h', h <> h' ++ [x]) -> no_adj_dup (h ++ [x]) = true.
Proof.
  induction h as [|y h0 IH]; intros Hh Hne; [reflexivity|].
  destruct h0 as [|z h1].
  - simpl. destruct (str_eqb y x) eqn:E; [|reflexivity].
    apply str_eqb_eq in E. subst. exfalso. exact (Hne [] eq_refl).
  - change (negb (str_eqb y z) && no_adj_dup (z :: h1) = true) in Hh.
    change (negb (str_eqb y z) && no_adj_dup ((z :: h1) ++ [x]) = true).
    apply andb_true_iff in Hh as [Hyz Hh]. rewrite Hyz, IH; [reflexivity | exact Hh |].
    intros h' E. apply (Hne (y :: h')). rewrite E. reflexivity.
Qed.

Lemma no_adj_dup_firstn (n : nat) (h : list jsstr) :
  no_adj_dup h = true -> no_adj_dup (firstn n h) = true.
Proof.
  revert n; induction h as [|y h0 IH]; intros n Hh; destruct n as [|n];
    try reflexivity.
  destruct h0 as [|z h1]; [destruct n; reflexivity|].
  destruct n as [|n]; [reflexivity|].
  change (negb (str_eqb y z) && no_adj_dup (z :: h1) = true) in Hh.
  apply andb_true_iff in Hh as [Hyz Hh].
  change (negb (str_eqb y z) && no_adj_dup (firstn (S n) (z :: h1)) = true).
  rewrite Hyz, IH; [reflexivity | exact Hh].
Qed.

Lemma restore_stringify (h : list jsstr) (b : bool) :
  restore (mkStorage (Some (JSON_stringify h)) b) = RList h.
Proof.
  unfold restore, initializeHistory, constructor. cbn [session history_item].
  rewrite JSON_stringify_truthy, JSON_roundtrip, as_history_roundtrip. reflexivity.
Qed.

Lemma restore_absent (b : bool) : restore (mkStorage None b) = RList [].
Proof. reflexivity. Qed.

Lemma saveHistory_restore (st : State) :
  quota_exceeded (session st) = false ->
  restore (session (saveHistory st)) = RList (navigationHistory (saveHistory st)) /\
  quota_exceeded (session (saveHistory st)) = false.
Proof.
  intro Hq. unfold saveHistory. rewrite Hq. cbn [session navigationHistory set_session].
  split; [apply restore_stringify | reflexivity].
Qed.

(** The persisted mirror restores to the in-memory history. *)
Definition mirror_ok (st : State) : Prop :=
  restore (session st) = RList (navigationHistory st) /\ quota_exceeded (session st) = false.

Lemma apply_op_mirror (st : State) (op : hist_op) :
  mirror_ok st -> mirror_ok (apply_op st op).
Proof.
  intros [Hr Hq]. unfold mirror_ok. destruct op as [x | x |]; simpl.
  - unfold addToHistory. destruct (_ && _); [split; assumption|].
    rewrite renderBreadcrumb_state. apply saveHistory_restore. exact Hq.
  - unfold truncateHistory. destruct (negb _); [|split; assumption].
    apply saveHistory_restore. exact Hq.
  - unfold clearHistory. rewrite renderBreadcrumb_state.
    apply saveHistory_restore. exact Hq.
Qed.

Lemma run_ops_mirror (st : State) (ops : list hist_op) :
  mirror_ok st -> mirror_ok (run_ops st ops).
Proof.
  unfold run_ops. revert st; induction ops as [|op ops IH]; intros st H; simpl.
  - exact H.
  - apply IH, apply_op_mirror, H.
Qed.

(** ** Claim theorems: persistence *)

(** C8 (as amended): appending, breadcrumb truncation and clearing keep a
    history free of adjacent duplicates; restoring yields such a history
    when the stored value is absent, empty or not valid JSON (the
    [SyntaxError] is caught and the history reset to [[]]), or was written by
    [saveHistory] from such a history. *)
Theorem history_no_adj_dup_preserved (st : State) (x : jsstr) :
  no_adj_dup (navigationHistory st) = true ->
  no_adj_dup (navigationHistory (state_of (addToHistory st x))) = true /\
  no_adj_dup (navigationHistory (truncateHistory st x)) = true /\
  no_adj_dup (navigationHistory (state_of (clearHistory st))) = true /\
  (forall b, restores_no_adj_dup (mkStorage None b) = true) /\
  (forall stored b, truthy stored = false \/ JSON_parse stored = None ->
     restores_no_adj_dup (mkStorage (Some stored) b) = true) /\
  (forall b, restores_no_adj_dup
               (mkStorage (Some (JSON_stringify (navigationHistory st))) b) = true).
Proof.
  intro Hh. split; [|split; [|split; [|split; [|split]]]].
  - rewrite addToHistory_history. destruct (_ && _) eqn:E; [exact Hh|].
    apply no_adj_dup_snoc; [exact Hh|]. intros h' Eh.
    assert (Hc : exists h'', navigationHistory st = h'' ++ [x]) by (exists h'; exact Eh).
    apply tail_test_spec in Hc. congruence.
  - unfold truncateHistory. destruct (negb _); [|exact Hh].
    rewrite saveHistory_history. apply no_adj_dup_firstn. exact Hh.
  - unfold clearHistory. rewrite renderBreadcrumb_state, saveHistory_history. reflexivity.
  - intro b. reflexivity.
  - intros stored b Hs. unfold restores_no_adj_dup, restore, initializeHistory, constructor.
    cbn [session history_item].
    destruct (truthy stored) eqn:Et; [|reflexivity].
    destruct Hs as [Hs | Hs]; [discriminate | rewrite Hs; reflexivity].
  - intro b. unfold restores_no_adj_dup. rewrite restore_stringify. exact Hh.
Qed.

(** C8 fails as stated: [initializeHistory] takes the stored array as it is,
    so a stored [["api", "api"]] is restored with two adjacent equal IDs. *)
Lemma restore_keeps_adjacent_duplicates :
  restore (mkStorage (Some (q_ "['api', 'api']")) false) = RList [s_ "api"; s_ "api"] /\
  no_adj_dup [s_ "api"; s_ "api"] = false.
Proof. split; vm_compute; reflexivity. Qed.

(** C9: starting from an empty history and no stored value, after any
    sequence of appends, truncations and clears, restoring from the stored
    value yields the in-memory history; in particular after [append a;
    append b] (with [a <> b]) it yields [[a; b]]. *)
Theorem persist_roundtrip (st : State) :
  navigationHistory st = [] -> history_item (session st) = None ->
  quota_exceeded (session st) = false ->
  (forall ops, restore (session (run_ops st ops)) = RList (navigationHistory (run_ops st ops))) /\
  (forall a b, a <> b ->
     restore (session (run_ops st [OpAppend a; OpAppend b])) = RList [a; b]).
Proof.
  intros Hh Hi Hq.
  assert (H0 : mirror_ok st).
  { split; [|exact Hq]. rewrite Hh. destruct (session st) as [i q].
    simpl in Hi. subst i. apply restore_absent. }
  assert (Hall : forall ops,
            restore (session (run_ops st ops)) = RList (navigationHistory (run_ops st ops)))
    by (intro ops; apply (run_ops_mirror st ops H0)).
  split; [exact Hall|]. intros a b Hab. rewrite Hall.
  change (run_ops st [OpAppend a; OpAppend b])
    with (state_of (addToHistory (state_of (addToHistory st a)) b)).
  rewrite addToHistory_history, addToHistory_history, Hh. cbn.
  destruct (str_eqb a b) eqn:E; [apply str_eqb_eq in E; contradiction|].
  reflexivity.
Qed.

(** ** Witnesses: the claim theorems applied at concrete inputs *)

Definition s0 : State := with_filter (s_ "all") [].

Lemma filter_all_search_exact_witness :
  data s0 = Some fixture /\ currentCategory s0 = s_ "all" /\
  filteredTerms (onSearchInput s0 (s_ "Continuous")) =
    List.filter (matches_query (toLowerCase (s_ "Continuous"))) (terms fixture).
Proof.
  split; [reflexivity|]. split; [reflexivity|].
  exact (proj1 (filter_all_search_exact s0 fixture (s_ "Continuous") eq_refl eq_refl)).
Defined.

Lemma filter_category_exact_witness :
  data (with_filter (s_ "DevOps") []) = Some fixture /\
  subseq (filterTerms (with_filter (s_ "DevOps") [])) (terms fixture).
Proof.
  split; [reflexivity|].
  exact (proj1 (proj2 (filter_category_exact (with_filter (s_ "DevOps") []) fixture
                         (s_ "DevOps") eq_refl eq_refl eq_refl))).
Defined.

Lemma before_load_noop_witness :
  data (constructor (mkStorage None false) true) = None /\
  navigateToTerm (constructor (mkStorage None false) true) (s_ "api") true =
    Returned (constructor (mkStorage None false) true).
Proof.
  split; [reflexivity|].
  exact (proj2 (proj2 (before_load_noop (constructor (mkStorage None false) true) eq_refl)) (s_ "api") true).
Defined.

Lemma navigate_miss_noop_witness :
  find_by_id (terms fixture) (s_ "graphql") = None /\
  navigateToTerm dangling_state (s_ "graphql") false = Returned dangling_state.
Proof.
  split; [reflexivity|].
  apply (navigate_miss_noop dangling_state fixture); reflexivity.
Defined.

Definition abcd : list jsstr := [s_ "a"; s_ "b"; s_ "c"; s_ "d"].

Lemma truncate_first_occurrence_witness :
  navigationHistory (truncateHistory (set_history s0 abcd) (s_ "b")) = [s_ "a"; s_ "b"] /\
  truncateHistory (set_history s0 abcd) (s_ "z") = set_history s0 abcd.
Proof.
  destruct (truncate_first_occurrence (set_history s0 abcd) (s_ "b")) as [Hb _].
  destruct (truncate_first_occurrence (set_history s0 abcd) (s_ "z")) as [_ Hz].
  split.
  - apply (Hb [s_ "a"] [s_ "c"; s_ "d"]); [reflexivity | simpl; intros [H | []]; discriminate].
  - apply Hz. simpl. intros [H | [H | [H | [H | []]]]]; discriminate.
Defined.

Lemma addToHistory_tail_witness :
  addToHistory (set_history s0 [s_ "api"]) (s_ "api") = Returned (set_history s0 [s_ "api"]) /\
  navigationHistory (state_of (addToHistory (set_history s0 [s_ "api"]) (s_ "rest"))) =
    [s_ "api"; s_ "rest"].
Proof.
  destruct (addToHistory_tail (set_history s0 [s_ "api"]) (s_ "api")) as [H1 _].
  destruct (addToHistory_tail (set_history s0 [s_ "api"]) (s_ "rest")) as [_ [H2 _]].
  split.
  - apply (H1 []). reflexivity.
  - apply H2. intros h' E. destruct h' as [|y [|z h']]; simpl in E; discriminate.
Defined.

(** A prior filter state that hides the target: category ["DevOps"],
    query ["docker"], a trail, breadcrumb elements present. *)
Definition filtered_state : State :=
  mkState (Some fixture) [t_docker] (s_ "DevOps") (s_ "docker") [s_ "docker"]
          (mkStorage None false) true.

Lemma navigate_target_visible_witness :
  currentCategory filtered_state = s_ "DevOps" /\ searchQuery filtered_state = s_ "docker" /\
  ~ In t_api (filterTerms filtered_state) /\
  exists st', navigateToTerm filtered_state (s_ "api") false = Returned st' /\
    searchQuery st' = [] /\ currentCategory st' = s_ "all" /\
    id t_api = s_ "api" /\ In t_api (filteredTerms st') /\
    In t_api (filterTerms st').
Proof.
  split; [reflexivity|]. split; [reflexivity|].
  split; [vm_compute; intros [H | []]; discriminate|].
  eexists. split; [vm_compute; reflexivity|].
  apply (navigate_target_visible filtered_state _ fixture (s_ "api") false t_api);
    [reflexivity | reflexivity | vm_compute; reflexivity].
Defined.

Lemma history_no_adj_dup_preserved_witness :
  no_adj_dup (navigationHistory (set_history s0 abcd)) = true /\
  no_adj_dup (navigationHistory (state_of (addToHistory (set_history s0 abcd) (s_ "a")))) = true /\
  JSON_parse (s_ "[oops") = None /\
  restores_no_adj_dup (mkStorage (Some (s_ "[oops")) false) = true.
Proof.
  assert (Hp : JSON_parse (s_ "[oops") = None) by (vm_compute; reflexivity).
  split; [reflexivity|]. split.
  - exact (proj1 (history_no_adj_dup_preserved (set_history s0 abcd) (s_ "a") eq_refl)).
  - split; [exact Hp|].
    exact (proj1 (proj2 (proj2 (proj2 (proj2 (history_no_adj_dup_preserved
             (set_history s0 abcd) (s_ "a") eq_refl)))))
             (s_ "[oops") false (or_intror Hp)).
Defined.

Lemma persist_roundtrip_witness :
  restore (session (run_ops s0 [OpAppend (s_ "api"); OpAppend (s_ "rest");
                                OpTruncate (s_ "api"); OpAppend (s_ "docker")])) =
  RList (navigationHistory (run_ops s0 [OpAppend (s_ "api"); OpAppend (s_ "rest");
                                        OpTruncate (s_ "api"); OpAppend (s_ "docker")])) /\
  restore (session (run_ops s0 [OpAppend (s_ "api"); OpAppend (s_ "rest")])) =
    RList [s_ "api"; s_ "rest"].
Proof.
  destruct (persist_roundtrip s0 eq_refl eq_refl eq_refl) as [H1 H2].
  split; [apply H1|]. apply H2. discriminate.
Defined.

(** * Further properties of the code *)

(** ** Lemmas *)

Lemma lower_char_idem (c : ascii) : lower_char (lower_char c) = lower_char c.
Proof. destruct c as [[] [] [] [] [] [] [] []]; reflexivity. Qed.

Lemma toLowerCase_idem (s : jsstr) : toLowerCase (toLowerCase s) = toLowerCase s.
Proof.
  unfold toLowerCase. rewrite map_map.
  induction s as [|c s IH]; simpl; [reflexivity|]. rewrite lower_char_idem, IH. reflexivity.
Qed.

Lemma filter_filter_andb {A} (f g : A -> bool) (l : list A) :
  List.filter g (List.filter f l) = List.filter (fun x => f x && g x) l.
Proof.
  induction l as [|x l IH]; simpl; [reflexivity|].
  destruct (f x); simpl; [destruct (g x)|]; rewrite ?IH; reflexivity.
Qed.

Lemma in_split_first (x : jsstr) (h : list jsstr) :
  In x h -> exists pre post, h = pre ++ x :: post /\ ~ In x pre.
Proof.
  induction h as [|y h IH]; intro Hin; [destruct Hin|].
  destruct (str_eqb y x) eqn:E.
  - apply str_eqb_eq in E. subst. exists [], h. split; [reflexivity | intros []].
  - destruct Hin as [Hyx | Hin].
    + subst. rewrite str_eqb_refl in E. discriminate.
    + destruct (IH Hin) as [pre [post [Hh Hx]]]. exists (y :: pre), post. split.
      * rewrite Hh. reflexivity.
      * intros [Hyx | Hp]; [subst; rewrite str_eqb_refl in E; discriminate | exact (Hx Hp)].
Qed.

Lemma forallb_firstn {A} (f : A -> bool) (n : nat) (l : list A) :
  forallb f l = true -> forallb f (firstn n l) = true.
Proof.
  revert n; induction l as [|x l IH]; intros [|n] H; try reflexivity.
  simpl in *. apply andb_true_iff in H as [Hx Hl]. rewrite Hx, IH; auto.
Qed.

Lemma state_eta (st : State) : set_session st (session st) = st.
Proof. destruct st; reflexivity. Qed.

(** The breadcrumb items render exactly when every history ID resolves. *)
Lemma breadcrumb_items_ok (st : State) (d : GlossaryData) :
  data st = Some d ->
  forallb render_item_ok (breadcrumbTerms st) = history_resolves d (navigationHistory st).
Proof.
  intro Hd. unfold breadcrumbTerms, history_resolves. rewrite Hd.
  induction (navigationHistory st) as [|x h IH]; [reflexivity|]. simpl.
  destruct (find_by_id (terms d) x); simpl; [exact IH | reflexivity].
Qed.

Lemma renderBreadcrumb_resolving (st : State) (d : GlossaryData) :
  data st = Some d -> history_resolves d (navigationHistory st) = true ->
  renderBreadcrumb st = Returned st.
Proof.
  intros Hd Hr. unfold renderBreadcrumb. destruct (has_breadcrumb st); [|reflexivity].
  simpl. rewrite (breadcrumb_items_ok st d Hd), Hr.
  destruct (navigationHistory st); reflexivity.
Qed.

Lemma history_resolves_app (d : GlossaryData) (h1 h2 : list jsstr) :
  history_resolves d (h1 ++ h2) = history_resolves d h1 && history_resolves d h2.
Proof. unfold history_resolves. apply forallb_app. Qed.

Definition lookup_val (d : GlossaryData) (termId : jsstr) : jsval :=
  match find_by_id (terms d) termId with Some t => JTerm t | None => JUndefined end.

Lemma removelast_map {A B} (f : A -> B) (l : list A) :
  removelast (map f l) = map f (removelast l).
Proof.
  induction l as [|x l IH]; [reflexivity|].
  destruct l as [|y l]; [reflexivity|]. simpl in *. rewrite IH. reflexivity.
Qed.

Lemma forallb_removelast {A} (f : A -> bool) (l : list A) :
  forallb f l = true -> forallb f (removelast l) = true.
Proof.
  induction l as [|x l IH]; intro H; [reflexivity|].
  simpl in H. apply andb_true_iff in H as [Hx Hl].
  destruct l as [|y l]; [reflexivity|].
  change (f x && forallb f (removelast (y :: l)) = true). rewrite Hx, IH; auto.
Qed.

Lemma ids_of_lookups (d : GlossaryData) (h : list jsstr) :
  history_resolves d h = true ->
  flat_map (fun v => match v with JTerm t => [id t] | _ => [] end) (map (lookup_val d) h) = h.
Proof.
  unfold history_resolves. induction h as [|x h IH]; intro Hr; [reflexivity|].
  simpl in Hr |- *. unfold lookup_val at 1.
  destruct (find_by_id (terms d) x) as [t|] eqn:E; [|discriminate].
  apply find_by_id_in in E as [_ Hid]. simpl. rewrite Hid, IH; [reflexivity | exact Hr].
Qed.

Lemma filter_lookups (d : GlossaryData) (h : list jsstr) :
  List.filter not_null (map (lookup_val d) h) = map (lookup_val d) h.
Proof.
  induction h as [|x h IH]; [reflexivity|]. simpl. rewrite IH.
  unfold lookup_val. destruct (find_by_id _ _); reflexivity.
Qed.

Lemma breadcrumbLinks_resolving (st : State) (d : GlossaryData) :
  data st = Some d -> history_resolves d (navigationHistory st) = true ->
  breadcrumbLinks st = removelast (navigationHistory st).
Proof.
  intros Hd Hr. unfold breadcrumbLinks, breadcrumbTerms. rewrite Hd.
  change (fun termId => match find_by_id (terms d) termId with
                        | Some t => JTerm t | None => JUndefined end) with (lookup_val d).
  rewrite filter_lookups, removelast_map. apply ids_of_lookups.
  unfold history_resolves in *. apply forallb_removelast. exact Hr.
Qed.

Lemma findTermIdByName_some (st : State) (d : GlossaryData) (n i : jsstr) :
  data st = Some d -> findTermIdByName st n = Some i ->
  exists t, In t (terms d) /\ id t = i /\ toLowerCase (term t) = toLowerCase n.
Proof.
  intros Hd H. unfold findTermIdByName in H. rewrite Hd in H.
  destruct (find _ _) as [t|] eqn:E; [|discriminate]. injection H as <-.
  apply find_some in E as [Hin Heq]. apply str_eqb_eq in Heq. eauto.
Qed.

Lemma find_by_id_exists (ts : list GlossaryTerm) (t : GlossaryTerm) :
  In t ts -> exists t', find_by_id ts (id t) = Some t'.
Proof.
  intro Hin. unfold find_by_id.
  destruct (find _ _) as [t'|] eqn:E; [eauto|].
  pose proof (find_none _ _ E t Hin) as F. simpl in F. rewrite str_eqb_refl in F. discriminate.
Qed.

Lemma addToHistory_resolving (st : State) (d : GlossaryData) (x : jsstr) (t : GlossaryTerm) :
  data st = Some d -> history_resolves d (navigationHistory st) = true ->
  find_by_id (terms d) x = Some t ->
  exists s1, addToHistory st x = Returned s1 /\ data s1 = Some d /\
    history_resolves d (navigationHistory s1) = true /\
    exists h', navigationHistory s1 = h' ++ [x].
Proof.
  intros Hd Hr Ht. unfold addToHistory.
  destruct (_ && _) eqn:E.
  - exists st. apply tail_test_spec in E. auto.
  - set (s1 := saveHistory (set_history st (navigationHistory st ++ [x]))).
    assert (Hd1 : data s1 = Some d) by (unfold s1; rewrite saveHistory_data; exact Hd).
    assert (Hh1 : navigationHistory s1 = navigationHistory st ++ [x])
      by (unfold s1; rewrite saveHistory_history; reflexivity).
    assert (Hr1 : history_resolves d (navigationHistory s1) = true).
    { rewrite Hh1, history_resolves_app, Hr. unfold history_resolves. simpl.
      rewrite Ht. reflexivity. }
    exists s1. rewrite (renderBreadcrumb_resolving s1 d Hd1 Hr1).
    split; [reflexivity|]. split; [exact Hd1|]. split; [exact Hr1|].
    exists (navigationHistory st). exact Hh1.
Qed.

Lemma truncateHistory_resolving (st : State) (d : GlossaryData) (x : jsstr) :
  history_resolves d (navigationHistory st) = true ->
  history_resolves d (navigationHistory (truncateHistory st x)) = true.
Proof.
  intro Hr. unfold truncateHistory. destruct (negb _); [|exact Hr].
  rewrite saveHistory_history. apply forallb_firstn. exact Hr.
Qed.

Lemma navigate_resolving_aux (st : State) (d : GlossaryData) (termId : jsstr)
    (fromBreadcrumb : bool) (t : GlossaryTerm) :
  data st = Some d -> find_by_id (terms d) termId = Some t ->
  history_resolves d (navigationHistory st) = true ->
  exists st', navigateToTerm st termId fromBreadcrumb = Returned st' /\
    data st' = Some d /\ filteredTerms st' = terms d /\
    searchQuery st' = [] /\ currentCategory st' = s_ "all" /\
    navigationHistory st' =
      navigationHistory (if fromBreadcrumb then truncateHistory st termId
                         else state_of (addToHistory st termId)) /\
    history_resolves d (navigationHistory st') = true /\
    (fromBreadcrumb = false \/ In termId (navigationHistory st) ->
     exists h', navigationHistory st' = h' ++ [termId]).
Proof.
  intros Hd Ht Hr. unfold navigateToTerm. rewrite Hd, Ht.
  assert (Hs1 : exists s1,
    (if fromBreadcrumb then Returned (truncateHistory st termId)
     else addToHistory st termId) = Returned s1 /\
    data s1 = Some d /\ history_resolves d (navigationHistory s1) = true /\
    navigationHistory s1 =
      navigationHistory (if fromBreadcrumb then truncateHistory st termId
                         else state_of (addToHistory st termId)) /\
    (fromBreadcrumb = false \/ In termId (navigationHistory st) ->
     exists h', navigationHistory s1 = h' ++ [termId])).
  { destruct fromBreadcrumb.
    - exists (truncateHistory st termId). split; [reflexivity|].
      split; [rewrite truncateHistory_data; exact Hd|].
      split; [apply truncateHistory_resolving; exact Hr|]. split; [reflexivity|].
      intros [H | Hin]; [discriminate|].
      destruct (in_split_first _ _ Hin) as [pre [post [Hh Hx]]].
      exists pre. exact (truncateHistory_found st pre post termId Hh Hx).
    - destruct (addToHistory_resolving st d termId t Hd Hr Ht)
        as [s1 [Ha [Hd1 [Hr1 Hend]]]].
      exists s1. rewrite Ha. auto 6. }
  destruct Hs1 as [s1 [Ho [Hd1 [Hr1 [Hh1 Hend]]]]]. rewrite Ho.
  set (s2 := filterAndRender (set_filter s1 (s_ "all") [])).
  assert (Hd2 : data s2 = Some d) by exact Hd1.
  assert (Hr2 : history_resolves d (navigationHistory s2) = true) by exact Hr1.
  exists s2. rewrite (renderBreadcrumb_resolving s2 d Hd2 Hr2).
  split; [reflexivity|]. split; [exact Hd2|]. split.
  - apply (filterTerms_all_empty _ d); [exact Hd1 | reflexivity | reflexivity].
  - split; [reflexivity|]. split; [reflexivity|]. split; [exact Hh1|].
    split; [exact Hr2 | exact Hend].
Qed.

Lemma navigate_returned_view (st st' : State) (d : GlossaryData) (termId : jsstr)
    (fromBreadcrumb : bool) (t : GlossaryTerm) :
  data st = Some d -> find_by_id (terms d) termId = Some t ->
  navigateToTerm st termId fromBreadcrumb = Returned st' ->
  data st' = Some d /\ filteredTerms st' = terms d.
Proof.
  intros Hd Ht Hnav. unfold navigateToTerm in Hnav. rewrite Hd, Ht in Hnav.
  set (o := if fromBreadcrumb then Returned (truncateHistory st termId)
            else addToHistory st termId) in Hnav.
  assert (Hdata : data (state_of o) = Some d).
  { unfold o. destruct fromBreadcrumb; simpl.
    - rewrite truncateHistory_data. exact Hd.
    - rewrite addToHistory_data. exact Hd. }
  destruct o as [s1 | s1]; [|discriminate]. simpl in Hdata.
  pose proof (renderBreadcrumb_state (filterAndRender (set_filter s1 (s_ "all") []))) as Hr.
  rewrite Hnav in Hr. simpl in Hr. subst st'.
  split; [exact Hdata|].
  apply (filterTerms_all_empty _ d); [exact Hdata | reflexivity | reflexivity].
Qed.

(** ** Extra theorems *)

(** [findTermIdByName] returns the ID of a term of the dataset whose name
    equals the given one up to case, and returns [null] exactly when no term
    has that name up to case. *)
Theorem findTermIdByName_spec (st : State) (d : GlossaryData) (n : jsstr) :
  data st = Some d ->
  (forall i, findTermIdByName st n = Some i ->
     exists t, In t (terms d) /\ id t = i /\ toLowerCase (term t) = toLowerCase n) /\
  (findTermIdByName st n = None <->
     forall t, In t (terms d) -> toLowerCase (term t) <> toLowerCase n).
Proof.
  intro Hd. split; [intro i; apply findTermIdByName_some; exact Hd|].
  unfold findTermIdByName. rewrite Hd.
  destruct (find _ _) as [t|] eqn:E.
  - split; [discriminate|]. intro Hall. apply find_some in E as [Hin Heq].
    apply str_eqb_eq in Heq. exfalso. exact (Hall t Hin Heq).
  - split; [|reflexivity]. intros _ t Hin Heq.
    pose proof (find_none _ _ E t Hin) as F. simpl in F.
    rewrite Heq, str_eqb_refl in F. discriminate.
Qed.

(** The related-term lookup ignores case: a name and its lowercase form
    resolve to the same ID (or both to [null]). *)
Theorem findTermIdByName_case (st : State) (n : jsstr) :
  findTermIdByName st (toLowerCase n) = findTermIdByName st n.
Proof. unfold findTermIdByName. rewrite toLowerCase_idem. reflexivity. Qed.

(** While every ID of the history resolves, navigating to a resolving ID
    returns normally (no breadcrumb TypeError), shows all terms with an empty
    query and category ["all"], keeps every history ID resolving, and leaves
    the target at the end of the trail for a regular navigation (or a
    breadcrumb one to an ID on the trail). *)
Theorem navigate_resolving (st : State) (d : GlossaryData) (termId : jsstr)
    (fromBreadcrumb : bool) (t : GlossaryTerm) :
  data st = Some d -> find_by_id (terms d) termId = Some t ->
  history_resolves d (navigationHistory st) = true ->
  exists st', navigateToTerm st termId fromBreadcrumb = Returned st' /\
    filteredTerms st' = terms d /\ searchQuery st' = [] /\
    currentCategory st' = s_ "all" /\
    history_resolves d (navigationHistory st') = true /\
    (fromBreadcrumb = false \/ In termId (navigationHistory st) ->
     exists h', navigationHistory st' = h' ++ [termId]).
Proof.
  intros Hd Ht Hr.
  destruct (navigate_resolving_aux st d termId fromBreadcrumb t Hd Ht Hr)
    as [st' [Hn [_ [Hf [Hq [Hc [_ [Hr' Hend]]]]]]]].
  exists st'. auto 7.
Qed.

Lemma attr_value_dq_plain (s : jsstr) :
  forallb attr_plain s = true -> attr_value_dq s = Some s.
Proof.
  induction s as [|c s IH]; [reflexivity|].
  cbn [forallb]. intros H. apply andb_prop in H as [Hc Hs].
  unfold attr_plain in Hc. apply negb_true_iff in Hc.
  repeat rewrite orb_false_iff in Hc. destruct Hc as [[[Hq Ha] H0] H13].
  cbn [attr_value_dq]. rewrite Hq, Ha, H0, H13. cbn [orb].
  rewrite (IH Hs). reflexivity.
Qed.

(** Clicking a clickable related-term link (one whose name resolves to an ID)
    navigates: when the ID has no double quote, [&], NUL or CR, the
    [data-term-id] written for it reads back as the ID itself, and, while
    the history resolves, the click with it returns normally, a term with
    that ID is in the view, and the ID ends the trail. *)
Theorem related_click_navigates (st : State) (d : GlossaryData) (t : GlossaryTerm)
    (r i : jsstr) :
  data st = Some d -> history_resolves d (navigationHistory st) = true ->
  In (r, Some i) (relatedLinks st t) -> forallb attr_plain i = true -> i <> [] ->
  attr_value_dq i = Some i /\
  exists st' t', onRelatedClick st i = Returned st' /\ id t' = i /\
    In t' (filteredTerms st') /\ exists h', navigationHistory st' = h' ++ [i].
Proof.
  intros Hd Hr Hlink Hplain Hi. split; [exact (attr_value_dq_plain i Hplain)|].
  unfold relatedLinks in Hlink.
  apply in_map_iff in Hlink as [r' [Hp _]]. injection Hp as -> Hfind.
  destruct (findTermIdByName_some st d r i Hd Hfind) as [t0 [Hin0 [Hid0 _]]].
  destruct (find_by_id_exists (terms d) t0 Hin0) as [t' Ht']. rewrite Hid0 in Ht'.
  destruct (find_by_id_in _ _ _ Ht') as [Hin' Hid'].
  destruct (navigate_resolving_aux st d i false t' Hd Ht' Hr)
    as [st' [Hn [_ [Hf [_ [_ [_ [_ Hend]]]]]]]].
  exists st', t'. unfold onRelatedClick.
  destruct i as [|c i]; [contradiction|]. simpl truthy. cbv iota.
  rewrite Hn. split; [reflexivity|]. split; [exact Hid'|]. split.
  - rewrite Hf. exact Hin'.
  - apply Hend. left; reflexivity.
Qed.

(** Clicking a breadcrumb link (any item but the current one): when its ID
    has no double quote, [&], NUL or CR, the [data-term-id] written for it
    reads back as the ID itself, and, while the history resolves, the click
    with it returns normally and strictly shortens the trail to a prefix of
    it that ends with the clicked ID. *)
Theorem breadcrumb_click_shortens (st : State) (d : GlossaryData) (x : jsstr) :
  data st = Some d -> history_resolves d (navigationHistory st) = true ->
  In x (breadcrumbLinks st) -> forallb attr_plain x = true -> x <> [] ->
  attr_value_dq x = Some x /\
  exists st', onBreadcrumbClick st x = Returned st' /\
    (exists post, post <> [] /\ navigationHistory st = navigationHistory st' ++ post) /\
    (exists h', navigationHistory st' = h' ++ [x]).
Proof.
  intros Hd Hr Hin Hplain Hx. split; [exact (attr_value_dq_plain x Hplain)|].
  rewrite (breadcrumbLinks_resolving st d Hd Hr) in Hin.
  set (h := navigationHistory st) in *.
  assert (Hne : h <> []) by (intro E; rewrite E in Hin; destruct Hin).
  destruct (exists_last Hne) as [hinit [hl Hh]].
  rewrite Hh, removelast_last in Hin.
  destruct (in_split_first _ _ Hin) as [pre [post0 [Hrl Hpre]]].
  assert (Hh' : navigationHistory st = pre ++ x :: (post0 ++ [hl])).
  { change (h = pre ++ x :: (post0 ++ [hl])). rewrite Hh, Hrl, <- app_assoc. reflexivity. }
  assert (Hxin : In x (navigationHistory st))
    by (rewrite Hh'; apply in_or_app; right; left; reflexivity).
  assert (Ht : exists t, find_by_id (terms d) x = Some t).
  { unfold history_resolves in Hr. rewrite forallb_forall in Hr.
    specialize (Hr x Hxin). destruct (find_by_id _ _); [eauto | discriminate]. }
  destruct Ht as [t Ht].
  destruct (navigate_resolving_aux st d x true t Hd Ht Hr)
    as [st' [Hn [_ [_ [_ [_ [Hh1 _]]]]]]].
  rewrite (truncateHistory_found st pre (post0 ++ [hl]) x Hh' Hpre) in Hh1.
  exists st'. unfold onBreadcrumbClick.
  destruct x as [|c x']; [contradiction|]. simpl truthy. cbv iota.
  split; [exact Hn|]. split.
  - exists (post0 ++ [hl]). split.
    + intro E. apply app_eq_nil in E as [_ E]. discriminate.
    + unfold h. rewrite Hh1, Hh', <- app_assoc. reflexivity.
  - exists pre. exact Hh1.
Qed.

(** After a navigation to a resolving ID returns, the term counter shows
    the plain total (["N terms"], or ["1 term"]), never ["F of N"]. *)
Theorem navigate_term_count (st st' : State) (d : GlossaryData) (termId : jsstr)
    (fromBreadcrumb : bool) (t : GlossaryTerm) :
  data st = Some d -> find_by_id (terms d) termId = Some t ->
  navigateToTerm st termId fromBreadcrumb = Returned st' ->
  termCountText st' =
    nat_text (List.length (terms d)) ++ s_ " " ++
    (if List.length (terms d) =? 1 then s_ "term" else s_ "terms").
Proof.
  intros Hd Ht Hn.
  destruct (navigate_returned_view st st' d termId fromBreadcrumb t Hd Ht Hn) as [Hd' Hf].
  unfold termCountText. rewrite Hd', Hf, Nat.eqb_refl. reflexivity.
Qed.

Lemma filter_ext_eq {A} (f g : A -> bool) (l : list A) :
  (forall x, f x = g x) -> List.filter f l = List.filter g l.
Proof. intro H; induction l as [|x l IH]; simpl; [|rewrite H, IH]; reflexivity. Qed.

Definition filter_pred (st : State) (t : GlossaryTerm) : bool :=
  (str_eqb (currentCategory st) (s_ "all") || str_eqb (category t) (currentCategory st)) &&
  (negb (truthy (searchQuery st)) || matches_query (searchQuery st) t).

Lemma filterTerms_filter_pred (st : State) (d : GlossaryData) :
  data st = Some d -> filterTerms st = List.filter (filter_pred st) (terms d).
Proof.
  intro Hd. unfold filterTerms, filter_pred. rewrite Hd.
  destruct (str_eqb (currentCategory st) (s_ "all")), (truthy (searchQuery st));
    cbn [negb orb andb].
  - apply filter_ext_eq. reflexivity.
  - symmetry. apply filter_all_true. reflexivity.
  - rewrite filter_filter_andb. reflexivity.
  - apply filter_ext_eq. intro t. rewrite andb_true_r. reflexivity.
Qed.

(** The category and the query act as one conjunctive predicate over the
    dataset: [filterTerms] keeps, in dataset order, exactly the terms in the
    selected category (any, for ["all"]) that match the query (any, when it
    is empty). *)
Theorem filterTerms_conj (st : State) (d : GlossaryData) :
  data st = Some d ->
  filterTerms st =
    List.filter (fun t =>
      (str_eqb (currentCategory st) (s_ "all") ||
       str_eqb (category t) (currentCategory st)) &&
      (negb (truthy (searchQuery st)) || matches_query (searchQuery st) t)) (terms d) /\
  subseq (filterTerms st) (terms d).
Proof.
  intro Hd. rewrite (filterTerms_filter_pred st d Hd).
  split; [reflexivity|]. apply filter_subseq.
Qed.

(** A click on a category button sets the category to the button's, keeps
    the query and the trail, and lists exactly the terms of that category
    (every term, for ["all"]) that match the current query. *)
Theorem category_click_filters (st : State) (d : GlossaryData) (cat : jsstr) :
  data st = Some d ->
  currentCategory (onCategoryClick st cat) = cat /\
  searchQuery (onCategoryClick st cat) = searchQuery st /\
  navigationHistory (onCategoryClick st cat) = navigationHistory st /\
  forall t, In t (filteredTerms (onCategoryClick st cat)) <->
    In t (terms d) /\ (cat = s_ "all" \/ category t = cat) /\
    (searchQuery st = [] \/ matches_query (searchQuery st) t = true).
Proof.
  intro Hd. split; [reflexivity|]. split; [reflexivity|]. split; [reflexivity|].
  intro t. unfold onCategoryClick, filterAndRender. cbn [filteredTerms set_filtered].
  rewrite (filterTerms_filter_pred (set_filter st cat (searchQuery st)) d Hd).
  rewrite filter_In. unfold filter_pred. cbn [currentCategory searchQuery set_filter].
  rewrite andb_true_iff, !orb_true_iff, negb_true_iff, !str_eqb_eq.
  assert (Hq : truthy (searchQuery st) = false <-> searchQuery st = []).
  { unfold truthy. destruct (searchQuery st); split; intro H; try reflexivity; discriminate. }
  rewrite Hq. tauto.
Qed.

(** [clearHistory] never throws (an empty trail hides the breadcrumb), empties
    the trail, and persists ["[]"] (which restores to [[]]) unless the write
    fails, in which case the stored value is left as it was. *)
Theorem clearHistory_spec (st : State) :
  exists st', clearHistory st = Returned st' /\ navigationHistory st' = [] /\
    (quota_exceeded (session st) = false ->
       history_item (session st') = Some (s_ "[]") /\ restore (session st') = RList []) /\
    (quota_exceeded (session st) = true -> session st' = session st).
Proof.
  exists (saveHistory (set_history st [])). unfold clearHistory, renderBreadcrumb.
  rewrite saveHistory_history. cbn [navigationHistory set_history].
  split; [destruct (has_breadcrumb _); reflexivity|].
  split; [reflexivity|]. split.
  - intro Hq. unfold saveHistory. cbn [session set_history]. rewrite Hq.
    split; reflexivity.
  - intro Hq. unfold saveHistory. cbn [session set_history]. rewrite Hq. reflexivity.
Qed.

Lemma set_session_saveHistory (st : State) (ss : SessionStorage) :
  set_session (saveHistory st) ss = set_session st ss.
Proof. unfold saveHistory. destruct (quota_exceeded (session st)); reflexivity. Qed.

Lemma saveHistory_is_set_session (st : State) :
  exists ss, saveHistory st = set_session st ss.
Proof.
  unfold saveHistory. destruct (quota_exceeded (session st)).
  - exists (session st). symmetry. apply state_eta.
  - eexists. reflexivity.
Qed.

Lemma saveHistory_set_session (st : State) (ss : SessionStorage) :
  exists ss', saveHistory (set_session st ss) = set_session (saveHistory st) ss'.
Proof.
  destruct (saveHistory_is_set_session (set_session st ss)) as [s1 E].
  exists s1. rewrite E, set_session_saveHistory. reflexivity.
Qed.

Lemma apply_op_set_session (st : State) (ss : SessionStorage) (op : hist_op) :
  exists ss', apply_op (set_session st ss) op = set_session (apply_op st op) ss'.
Proof.
  destruct op as [x | x |]; unfold apply_op.
  - unfold addToHistory.
    change (navigationHistory (set_session st ss)) with (navigationHistory st).
    destruct (_ && _); [exists ss; reflexivity|].
    rewrite !renderBreadcrumb_state.
    exact (saveHistory_set_session (set_history st (navigationHistory st ++ [x])) ss).
  - unfold truncateHistory.
    change (navigationHistory (set_session st ss)) with (navigationHistory st).
    destruct (negb _); [|exists ss; reflexivity].
    match goal with
    | |- exists _, saveHistory (set_history _ ?h) = _ =>
        exact (saveHistory_set_session (set_history st h) ss)
    end.
  - unfold clearHistory. rewrite !renderBreadcrumb_state.
    exact (saveHistory_set_session (set_history st []) ss).
Qed.

Lemma run_ops_set_session (st : State) (ss : SessionStorage) (ops : list hist_op) :
  exists ss', run_ops (set_session st ss) ops = set_session (run_ops st ops) ss'.
Proof.
  unfold run_ops. revert st ss; induction ops as [|op ops IH]; intros st ss; simpl.
  - exists ss. reflexivity.
  - destruct (apply_op_set_session st ss op) as [s1 E]. rewrite E. apply IH.
Qed.

Lemma apply_op_quota (st : State) (op : hist_op) :
  quota_exceeded (session st) = true -> session (apply_op st op) = session st.
Proof.
  intro Hq. destruct op as [x | x |]; unfold apply_op.
  - unfold addToHistory. destruct (_ && _); [reflexivity|].
    rewrite renderBreadcrumb_state. unfold saveHistory. cbn [session set_history].
    rewrite Hq. reflexivity.
  - unfold truncateHistory. destruct (negb _); [|reflexivity].
    unfold saveHistory. cbn [session set_history]. rewrite Hq. reflexivity.
  - unfold clearHistory. rewrite renderBreadcrumb_state.
    unfold saveHistory. cbn [session set_history]. rewrite Hq. reflexivity.
Qed.

(** Persistence is best-effort: the in-memory history after any sequence of
    appends, truncations and clears does not depend on the session storage,
    and while [setItem] fails no operation changes the stored value. *)
Theorem history_independent_of_storage (st : State) (ss : SessionStorage)
    (ops : list hist_op) :
  navigationHistory (run_ops (set_session st ss) ops) = navigationHistory (run_ops st ops) /\
  (quota_exceeded (session st) = true -> session (run_ops st ops) = session st).
Proof.
  split.
  - destruct (run_ops_set_session st ss ops) as [s1 E]. rewrite E. reflexivity.
  - unfold run_ops. revert st; induction ops as [|op ops IH]; intros st Hq; simpl;
      [reflexivity|].
    rewrite IH; [apply apply_op_quota; exact Hq|].
    rewrite apply_op_quota; exact Hq.
Qed.

Lemma escape_html_char_no_angle (c : ascii) :
  existsb (fun x => ascii_eqb x "<" || ascii_eqb x ">") (escape_html_char c) = false.
Proof. destruct c as [[] [] [] [] [] [] [] []]; reflexivity. Qed.

(** [escapeHtml] never outputs [<] or [>], so an interpolated name cannot
    open or close a tag; it leaves double quotes as they are, so a name with
    a double quote keeps it inside the attribute values it is placed in. *)
Theorem escapeHtml_angles_quotes (text : jsstr) :
  ~ In "<"%char (escapeHtml text) /\ ~ In ">"%char (escapeHtml text) /\
  (In dquote text -> In dquote (escapeHtml text)).
Proof.
  assert (Hno : forall a, In a (escapeHtml text) ->
                ascii_eqb a "<" || ascii_eqb a ">" = false).
  { intros a Ha. unfold escapeHtml in Ha. apply in_flat_map in Ha as [c [_ Hc]].
    pose proof (escape_html_char_no_angle c) as E.
    destruct (ascii_eqb a "<" || ascii_eqb a ">") eqn:Ea; [|reflexivity].
    assert (existsb (fun x => ascii_eqb x "<" || ascii_eqb x ">") (escape_html_char c) = true)
      by (apply existsb_exists; eauto).
    congruence. }
  split; [intro H; specialize (Hno _ H); discriminate|].
  split; [intro H; specialize (Hno _ H); discriminate|].
  intro Hq. unfold escapeHtml. apply in_flat_map. exists dquote.
  split; [exact Hq | left; reflexivity].
Qed.

(** ** Loading *)

Section Sorting.

Variable lc : jsstr -> jsstr -> Z.

(** A comparator that reports [a] above [b] reports [b] not above [a]. *)
Hypothesis lc_flip : forall a b, (lc a b > 0)%Z -> (lc b a <= 0)%Z.

Let le_term (a b : GlossaryTerm) : Prop := (lc (term a) (term b) <= 0)%Z.

Lemma insert_term_perm (x : GlossaryTerm) (l : list GlossaryTerm) :
  Permutation (insert_term lc x l) (x :: l).
Proof.
  induction l as [|y l IH]; simpl; [reflexivity|].
  destruct (lc (term x) (term y) <=? 0)%Z; [reflexivity|].
  transitivity (y :: x :: l); [constructor; exact IH | apply perm_swap].
Qed.

Lemma sort_terms_perm (l : list GlossaryTerm) : Permutation (sort_terms lc l) l.
Proof.
  induction l as [|x l IH]; simpl; [reflexivity|].
  rewrite insert_term_perm. constructor. exact IH.
Qed.

Lemma insert_term_sorted (x : GlossaryTerm) (l : list GlossaryTerm) :
  Sorted le_term l -> Sorted le_term (insert_term lc x l).
Proof.
  induction l as [|y l IH]; intro Hs; simpl; [repeat constructor|].
  destruct (lc (term x) (term y) <=? 0)%Z eqn:E.
  - constructor; [exact Hs|]. constructor. apply Z.leb_le. exact E.
  - apply Sorted_inv in Hs as [Hs Hh].
    assert (Hyx : le_term y x).
    { unfold le_term. apply lc_flip. apply Z.leb_gt in E. lia. }
    constructor; [apply IH; exact Hs|].
    destruct l as [|z l]; simpl; [constructor; exact Hyx|].
    destruct (lc (term x) (term z) <=? 0)%Z; constructor; [exact Hyx|].
    inversion Hh; assumption.
Qed.

Lemma sort_terms_sorted (l : list GlossaryTerm) : Sorted le_term (sort_terms lc l).
Proof.
  induction l as [|x l IH]; simpl; [constructor|]. apply insert_term_sorted. exact IH.
Qed.

End Sorting.

(** With a comparator whose sign is consistent ([a] above [b] implies [b] not
    above [a]), a successful [loadData] keeps a permutation of the fetched
    terms, ordered by [localeCompare] on the displayed names, and the fetched
    categories unchanged. *)
Theorem loadData_sorted (localeCompare : jsstr -> jsstr -> Z)
    (Hflip : forall a b, (localeCompare a b > 0)%Z -> (localeCompare b a <= 0)%Z)
    (ts : list GlossaryTerm) (cats : list jsstr) :
  exists l, loadData localeCompare (Body (Some ts) cats) = (DLoaded (mkData l cats), None) /\
    Permutation l ts /\
    Sorted (fun a b => (localeCompare (term a) (term b) <= 0)%Z) l.
Proof.
  exists (sort_terms localeCompare ts). split; [reflexivity|]. split.
  - apply sort_terms_perm.
  - apply sort_terms_sorted. exact Hflip.
Qed.

Lemma initializeHistory_restored (ss : SessionStorage) (dom : bool) (h : list jsstr) :
  restore ss = RList h ->
  initializeHistory (constructor ss dom) = HistState (set_history (constructor ss dom) h).
Proof.
  unfold restore, initializeHistory, constructor. cbn [session].
  destruct (history_item ss) as [stored|].
  - destruct (truthy stored).
    + destruct (JSON_parse stored) as [v|].
      * destruct (as_history v); intro H; [|discriminate].
        injection H as <-. reflexivity.
      * intro H. injection H as <-. reflexivity.
    + intro H. injection H as <-. reflexivity.
  - intro H. injection H as <-. reflexivity.
Qed.

Lemma breadcrumb_error_first (d : GlossaryData) (h : list jsstr) :
  history_resolves d h = false ->
  exists pre x post, h = pre ++ x :: post /\ history_resolves d pre = true /\
    find_by_id (terms d) x = None /\
    breadcrumb_error (map (lookup_val d) h) =
      undefined_message (match post with [] => s_ "term" | _ :: _ => s_ "id" end).
Proof.
  induction h as [|y h IH]; intro Hr; [discriminate|].
  unfold history_resolves in Hr. cbn [forallb] in Hr.
  destruct (find_by_id (terms d) y) as [t|] eqn:E.
  - cbn [andb] in Hr. fold (history_resolves d h) in Hr.
    destruct (IH Hr) as (pre & x & post & Hh & Hpre & Hx & He).
    exists (y :: pre), x, post. split; [rewrite Hh; reflexivity|].
    split; [unfold history_resolves; cbn [forallb]; rewrite E; exact Hpre|].
    split; [exact Hx|].
    destruct h as [|z h]; [discriminate|].
    rewrite <- He. cbn [map]. unfold lookup_val at 1. rewrite E. reflexivity.
  - exists [], y, h. split; [reflexivity|]. split; [reflexivity|]. split; [exact E|].
    destruct h as [|z h]; cbn [map]; unfold lookup_val at 1; rewrite E; reflexivity.
Qed.


(** ** Instances of the further properties *)

(** A comparator for the instances: code-unit order, the order
    [localeCompare] gives on lower-case ASCII names. *)
Fixpoint code_compare (a b : jsstr) : Z :=
  match a, b with
  | [], [] => 0%Z
  | [], _ => (-1)%Z
  | _, [] => 1%Z
  | x :: a', y :: b' =>
      if nat_of_ascii x <? nat_of_ascii y then (-1)%Z
      else if nat_of_ascii y <? nat_of_ascii x then 1%Z
      else code_compare a' b'
  end.

Lemma code_compare_flip (a b : jsstr) :
  (code_compare a b > 0)%Z -> (code_compare b a <= 0)%Z.
Proof.
  revert b; induction a as [|x a IH]; intros [|y b]; simpl; try lia.
  destruct (Nat.ltb_spec (nat_of_ascii x) (nat_of_ascii y)),
           (Nat.ltb_spec (nat_of_ascii y) (nat_of_ascii x)); try lia.
  apply IH.
Qed.

Definition trail3 : State := set_history s0 [s_ "api"; s_ "rest"; s_ "docker"].

Definition stored_gone : SessionStorage :=
  mkStorage (Some (q_ "['api', 'gone']")) false.

Definition stored_gone_first : SessionStorage :=
  mkStorage (Some (q_ "['gone', 'api']")) false.

Definition sorted_fixture : GlossaryData :=
  mkData (sort_terms code_compare (terms fixture)) (categories fixture).

Lemma findTermIdByName_spec_witness :
  data s0 = Some fixture /\
  forall t, In t (terms fixture) -> toLowerCase (term t) <> toLowerCase (s_ "GraphQL").
Proof.
  split; [reflexivity|].
  apply (proj1 (proj2 (findTermIdByName_spec s0 fixture (s_ "GraphQL") eq_refl))).
  reflexivity.
Defined.

Lemma navigate_resolving_witness :
  data trail3 = Some fixture /\ find_by_id (terms fixture) (s_ "ci-cd") = Some t_cicd /\
  history_resolves fixture (navigationHistory trail3) = true /\
  exists st', navigateToTerm trail3 (s_ "ci-cd") false = Returned st' /\
    filteredTerms st' = terms fixture /\
    exists h', navigationHistory st' = h' ++ [s_ "ci-cd"].
Proof.
  split; [reflexivity|]. split; [reflexivity|]. split; [reflexivity|].
  destruct (navigate_resolving trail3 fixture (s_ "ci-cd") false t_cicd
              eq_refl eq_refl eq_refl) as (st' & Hn & Hf & _ & _ & _ & Hh).
  exists st'. split; [exact Hn|]. split; [exact Hf|].
  apply Hh. left. reflexivity.
Defined.

Lemma related_click_navigates_witness :
  data s0 = Some fixture /\ history_resolves fixture (navigationHistory s0) = true /\
  In (s_ "REST", Some (s_ "rest")) (relatedLinks s0 t_api) /\
  forallb attr_plain (s_ "rest") = true /\ s_ "rest" <> [] /\
  attr_value_dq (s_ "rest") = Some (s_ "rest") /\
  exists st' t', onRelatedClick s0 (s_ "rest") = Returned st' /\ id t' = s_ "rest" /\
    In t' (filteredTerms st') /\ exists h', navigationHistory st' = h' ++ [s_ "rest"].
Proof.
  assert (Hin : In (s_ "REST", Some (s_ "rest")) (relatedLinks s0 t_api))
    by (vm_compute; left; reflexivity).
  assert (Hne : s_ "rest" <> []) by discriminate.
  split; [reflexivity|]. split; [reflexivity|]. split; [exact Hin|].
  split; [reflexivity|]. split; [exact Hne|].
  exact (related_click_navigates s0 fixture t_api (s_ "REST") (s_ "rest")
           eq_refl eq_refl Hin eq_refl Hne).
Defined.

Lemma breadcrumb_click_shortens_witness :
  data trail3 = Some fixture /\ history_resolves fixture (navigationHistory trail3) = true /\
  In (s_ "api") (breadcrumbLinks trail3) /\
  forallb attr_plain (s_ "api") = true /\ s_ "api" <> [] /\
  attr_value_dq (s_ "api") = Some (s_ "api") /\
  exists st', onBreadcrumbClick trail3 (s_ "api") = Returned st' /\
    (exists post, post <> [] /\ navigationHistory trail3 = navigationHistory st' ++ post) /\
    (exists h', navigationHistory st' = h' ++ [s_ "api"]).
Proof.
  assert (Hin : In (s_ "api") (breadcrumbLinks trail3)) by (vm_compute; left; reflexivity).
  assert (Hne : s_ "api" <> []) by discriminate.
  split; [reflexivity|]. split; [reflexivity|]. split; [exact Hin|].
  split; [reflexivity|]. split; [exact Hne|].
  exact (breadcrumb_click_shortens trail3 fixture (s_ "api") eq_refl eq_refl Hin eq_refl Hne).
Defined.

Lemma navigate_term_count_witness :
  data (with_filter (s_ "DevOps") (s_ "docker")) = Some fixture /\
  find_by_id (terms fixture) (s_ "api") = Some t_api /\
  navigateToTerm (with_filter (s_ "DevOps") (s_ "docker")) (s_ "api") false =
    Returned (state_of (navigateToTerm (with_filter (s_ "DevOps") (s_ "docker")) (s_ "api") false)) /\
  termCountText (state_of (navigateToTerm (with_filter (s_ "DevOps") (s_ "docker")) (s_ "api") false)) =
    s_ "4 terms".
Proof.
  split; [reflexivity|]. split; [reflexivity|]. split; [reflexivity|].
  rewrite (navigate_term_count (with_filter (s_ "DevOps") (s_ "docker"))
             (state_of (navigateToTerm (with_filter (s_ "DevOps") (s_ "docker")) (s_ "api") false))
             fixture (s_ "api") false t_api eq_refl eq_refl eq_refl).
  reflexivity.
Defined.

Lemma filterTerms_conj_witness :
  data (with_filter (s_ "DevOps") (s_ "docker")) = Some fixture /\
  subseq (filterTerms (with_filter (s_ "DevOps") (s_ "docker"))) (terms fixture) /\
  filterTerms (with_filter (s_ "DevOps") (s_ "docker")) = [t_docker].
Proof.
  split; [reflexivity|]. split; [|reflexivity].
  exact (proj2 (filterTerms_conj (with_filter (s_ "DevOps") (s_ "docker")) fixture eq_refl)).
Defined.

Lemma loadData_sorted_witness :
  (forall a b, (code_compare a b > 0)%Z -> (code_compare b a <= 0)%Z) /\
  exists l, loadData code_compare (Body (Some (terms fixture)) (categories fixture)) =
              (DLoaded (mkData l (categories fixture)), None) /\
    Permutation l (terms fixture) /\
    Sorted (fun a b => (code_compare (term a) (term b) <= 0)%Z) l.
Proof.
  split; [exact code_compare_flip|].
  exact (loadData_sorted code_compare code_compare_flip (terms fixture) (categories fixture)).
Defined.



Lemma category_click_filters_witness :
  data (with_filter (s_ "all") (s_ "a")) = Some fixture /\
  (In t_cicd (filteredTerms (onCategoryClick (with_filter (s_ "all") (s_ "a")) (s_ "DevOps"))) <->
   In t_cicd (terms fixture) /\ (s_ "DevOps" = s_ "all" \/ category t_cicd = s_ "DevOps") /\
   (s_ "a" = [] \/ matches_query (s_ "a") t_cicd = true)).
Proof.
  split; [reflexivity|].
  exact (proj2 (proj2 (proj2 (category_click_filters (with_filter (s_ "all") (s_ "a")) fixture
                                (s_ "DevOps") eq_refl))) t_cicd).
Defined.
